(** * tty-copy: a shallow embedding of [src/tty-copy.c]

    Bytes ([uchar], and the [int] results of [fgetc]) are modelled as [Z];
    [EOF] is [-1].  Byte strings are [list Z].  The stdio streams, the
    terminal device and the termios calls of [main] are modelled as explicit
    state passing. *)

From Stdlib Require Import Ascii String ZArith List Lia Bool.
Import ListNotations.
Open Scope Z_scope.

(** ** Byte-level helpers *)

(** The bytes of a C string literal. *)
Definition str (s : string) : list Z :=
  map (fun a => Z.of_nat (nat_of_ascii a)) (list_ascii_of_string s).

Definition ESC : Z := 27.
Definition BEL : Z := 7.

Definition is_byte (x : Z) : Prop := 0 <= x < 256.

(** [size_t] arithmetic wraps modulo 2^64. *)
Definition size_t (x : Z) : Z := x mod 2 ^ 64.

(** ** Base64 encoder ([base64_encoded_size], [base64_encode]) *)

Definition b64_table : list Z :=
  str "ABCDEFGHIJKLMNOPQRSTUVWXYZabcdefghijklmnopqrstuvwxyz0123456789+/".

(** [b64_table[i]]; every index used by the encoder is below 64. *)
Definition tbl (i : Z) : Z := nth (Z.to_nat i) b64_table 0.

(** [(size + 2) / 3 * 4 + 1], every operation on [size_t]. *)
Definition base64_encoded_size (size : Z) : Z :=
  size_t (size_t (size_t (size + 2) / 3 * 4) + 1).

(** The body of [base64_encode]: the [while (end - in >= 3)] loop and the
    padded tail, as the list of bytes written from [dst] on. *)
Fixpoint b64_loop (src : list Z) : list Z :=
  match src with
  | a :: b :: c :: rest =>
      tbl (Z.shiftr a 2)
      :: tbl (Z.lor (Z.shiftl (Z.land a 3) 4) (Z.shiftr b 4))
      :: tbl (Z.lor (Z.shiftl (Z.land b 15) 2) (Z.shiftr c 6))
      :: tbl (Z.land c 63)
      :: b64_loop rest
  | [a] =>
      [tbl (Z.shiftr a 2); tbl (Z.shiftl (Z.land a 3) 4); 61; 61]
  | [a; b] =>
      [tbl (Z.shiftr a 2);
       tbl (Z.lor (Z.shiftl (Z.land a 3) 4) (Z.shiftr b 4));
       tbl (Z.shiftl (Z.land b 15) 2); 61]
  | [] => []
  end.

(** [base64_encode(src, srclen, dst, dstlen)]: [None] when the assertion on
    [dstlen] fails (abort); otherwise the bytes written to [dst] (the encoding
    and its terminating NUL) and the returned length [pos - dst]. *)
Definition base64_encode (src : list Z) (dstlen : Z) : option (list Z * Z) :=
  if dstlen >=? base64_encoded_size (Z.of_nat (length src)) then
    let e := b64_loop src in Some (e ++ [0], Z.of_nat (length e))
  else None.

(** ** RFC 4648 base64 decoding, from the specification's words
    (alphabet [A-Z a-z 0-9 + /], ['='] padding); used to state the round
    trip of the encoder above. *)

Definition rfc4648_char_value (c : Z) : option Z :=
  if (65 <=? c) && (c <=? 90) then Some (c - 65)
  else if (97 <=? c) && (c <=? 122) then Some (c - 71)
  else if (48 <=? c) && (c <=? 57) then Some (c + 4)
  else if c =? 43 then Some 62
  else if c =? 47 then Some 63
  else None.

Definition is_b64_char (c : Z) : bool :=
  match rfc4648_char_value c with Some _ => true | None => false end.

Fixpoint rfc4648_decode (l : list Z) : option (list Z) :=
  match l with
  | [] => Some []
  | c0 :: c1 :: c2 :: c3 :: rest =>
      match rfc4648_char_value c0, rfc4648_char_value c1 with
      | Some s0, Some s1 =>
          let b0 := Z.lor (Z.shiftl s0 2) (Z.shiftr s1 4) in
          if c2 =? 61 then
            if (c3 =? 61) && (match rest with [] => true | _ => false end)
            then Some [b0] else None
          else
            match rfc4648_char_value c2 with
            | None => None
            | Some s2 =>
                let b1 := Z.lor (Z.shiftl (Z.land s1 15) 4) (Z.shiftr s2 2) in
                if c3 =? 61 then
                  match rest with [] => Some [b0; b1] | _ => None end
                else
                  match rfc4648_char_value c3 with
                  | None => None
                  | Some s3 =>
                      let b2 := Z.lor (Z.shiftl (Z.land s2 3) 6) s3 in
                      match rfc4648_decode rest with
                      | Some r => Some (b0 :: b1 :: b2 :: r)
                      | None => None
                      end
                  end
            end
      | _, _ => None
      end
  | _ => None
  end.

(** ** stdio streams

    A [FILE] opened for reading: the bytes pushed back by [ungetc]
    ([ungot], read first), the bytes still to come from the underlying file
    ([rest]), the end-of-file and error indicators, and whether reading past
    [rest] fails with a read error instead of reaching end of file. *)
Record file := mkfile {
  ungot : list Z;
  rest : list Z;
  eof : bool;
  err : bool;
  fail_at_end : bool
}.

Definition EOF : Z := -1.

Definition set_ungot f u := mkfile u (rest f) (eof f) (err f) (fail_at_end f).
Definition set_rest f r := mkfile (ungot f) r (eof f) (err f) (fail_at_end f).
Definition set_eof f := mkfile (ungot f) (rest f) true (err f) (fail_at_end f).
Definition set_err f := mkfile (ungot f) (rest f) (eof f) true (fail_at_end f).

(** A freshly opened stream over the bytes [s]. *)
Definition open_file (s : list Z) (fails : bool) : file := mkfile [] s false false fails.

(** [fgetc]: pushed-back bytes first; the end-of-file indicator is sticky. *)
Definition fgetc (f : file) : Z * file :=
  match ungot f with
  | c :: u => (c, set_ungot f u)
  | [] =>
      if eof f then (EOF, f)
      else match rest f with
           | c :: r => (c, set_rest f r)
           | [] => if fail_at_end f then (EOF, set_err f) else (EOF, set_eof f)
           end
  end.

(** [ungetc]: pushing back [EOF] fails and leaves the stream unchanged;
    otherwise the byte is pushed back and the end-of-file indicator cleared. *)
Definition ungetc (c : Z) (f : file) : Z * file :=
  if c =? EOF then (EOF, f)
  else (c, mkfile (c :: ungot f) (rest f) false (err f) (fail_at_end f)).

(** [fpeek]. *)
Definition fpeek (stream : file) : Z * file :=
  let (ch, s1) := fgetc stream in
  let (_, s2) := ungetc ch s1 in
  (ch, s2).

(** [fread(buf, 1, n, f)]: the bytes read, stopping at the first [EOF]. *)
Fixpoint fread (n : nat) (f : file) : list Z * file :=
  match n with
  | O => ([], f)
  | S m =>
      let (c, f1) := fgetc f in
      if c =? EOF then ([], f1)
      else let (cs, f2) := fread m f1 in (c :: cs, f2)
  end.

(** ** The terminal device [tty] (opened ["r+"])

    Every output call is recorded as an attempted write; a write succeeds or
    fails as the next entry of [wok] says (succeeding once [wok] is used up);
    a failed write outputs nothing and sets the error indicator.  The termios
    calls are recorded in the same trace.  Replies of the terminal are read
    from [tin]. *)
Inductive event :=
  | Wr (ok : bool) (bs : list Z)
  | ModeSave
  | ModeSet
  | ModeRestore.

Record tty := mktty {
  trace : list event;
  terr : bool;
  wok : list bool;
  tin : file
}.

Definition log (t : tty) (e : event) : tty :=
  mktty (trace t ++ [e]) (terr t) (wok t) (tin t).

Definition write_attempt (bs : list Z) (t : tty) : bool * tty :=
  let (ok, w) := match wok t with [] => (true, []) | b :: w => (b, w) end in
  (ok, mktty (trace t ++ [Wr ok bs]) (terr t || negb ok) w (tin t)).

(** [fputs] / [fprintf]: a non-negative result on success, [-1] on error. *)
Definition fputs (bs : list Z) (t : tty) : Z * tty :=
  let (ok, t') := write_attempt bs t in (if ok then 0 else -1, t').

(** [fwrite(buf, 1, len, tty)]: the number of bytes written. *)
Definition fwrite (bs : list Z) (t : tty) : Z * tty :=
  let (ok, t') := write_attempt bs t in
  (if ok then Z.of_nat (length bs) else 0, t').

Definition tty_fgetc (t : tty) : Z * tty :=
  let (c, f) := fgetc (tin t) in (c, mktty (trace t) (terr t) (wok t) f).

(** [ferror(tty)]: the stream's error indicator, set by failed writes and by
    failed reads alike. *)
Definition ferror_tty (t : tty) : bool := terr t || err (tin t).

(** The bytes that reached the device. *)
Fixpoint output (tr : list event) : list Z :=
  match tr with
  | Wr true bs :: r => bs ++ output r
  | _ :: r => output r
  | [] => []
  end.

(** ** Options and the OSC 52 sequence ([seq_start], [seq_end]) *)

Inductive op_t := OP_CLEAR | OP_TEST | OP_WRITE.

Record opts := mkopts {
  op : op_t;
  is_screen : bool;
  is_tmux : bool;
  primary : bool;
  trim_newline : bool
}.

Definition EXIT_SUCCESS : Z := 0.
Definition ERR_GENERAL : Z := 1.
Definition ERR_WRONG_USAGE : Z := 10.
Definition ERR_IO : Z := 11.

Definition OSC_SAFE_LIMIT : Z := 74994.

(** [sprintf(seq_start, "%s\033]52;%c;", ...)]. *)
Definition seq_start (o : opts) : list Z :=
  (if is_tmux o then [ESC] ++ str "Ptmux;" ++ [ESC] else [])
  ++ [ESC] ++ str "]52;" ++ (if primary o then str "p" else str "c") ++ str ";".

(** [opts.is_tmux ? "\a\033\\" : "\a"]. *)
Definition seq_end (o : opts) : list Z :=
  if is_tmux o then [BEL; ESC; 92] else [BEL].

(** ** The copy loop of [main] *)

(** [sizeof(read_buf)]. *)
Definition read_buf_size (o : opts) : nat := ((if is_screen o then 254 else 2048) * 3)%nat.

(** [sizeof(enc_buf)]. *)
Definition enc_buf_size (o : opts) : Z :=
  base64_encoded_size (Z.of_nat (read_buf_size o)).

Record lstate := mkl {
  input : file;
  dev : tty;
  write_header : bool;
  input_len : Z;
  rc : Z
}.

Definition last_byte (l : list Z) : Z := last l 0.

(** One run of [while ((read_len = fread(...)) > 0) { ... }]; [None] is an
    abort by the assertion in [base64_encode].  The loop reads at least one
    byte per iteration, so [fuel] above the stream length never runs out
    (see [loop_fuel_enough]).  [input_len] is a [size_t]: it wraps modulo
    [2^64]. *)
Fixpoint copy_loop (fuel : nat) (o : opts) (st : lstate) : option lstate :=
  match fuel with
  | O => Some st
  | S fuel' =>
      let (chunk, in1) := fread (read_buf_size o) (input st) in
      match chunk with
      | [] => Some (mkl in1 (dev st) (write_header st) (input_len st) (rc st))
      | _ =>
          let len' := size_t (input_len st + Z.of_nat (length chunk)) in
          let '(trim, in2) :=
            if trim_newline o then
              let (ch, in2) := fpeek in1 in
              ((ch =? EOF) && (last_byte chunk =? 10), in2)
            else (false, in1) in
          let chunk' := if trim then removelast chunk else chunk in
          if trim && (length chunk' =? 0)%nat then
            Some (mkl in2 (dev st) (write_header st) len' (rc st))
          else
            let t1 := if is_screen o then snd (fputs [ESC; 80] (dev st)) else dev st in
            let '(t2, wh) :=
              if write_header st then (snd (fputs (seq_start o) t1), false)
              else (t1, write_header st) in
            match base64_encode chunk' (enc_buf_size o) with
            | None => None
            | Some (buf, len) =>
                let (n, t3) := fwrite (firstn (Z.to_nat len) buf) t2 in
                if negb (n =? len) then Some (mkl in2 t3 wh len' ERR_IO)
                else
                  let t4 := if is_screen o then snd (fputs [ESC; 92] t3) else t3 in
                  copy_loop fuel' o (mkl in2 t4 wh len' (rc st))
            end
      end
  end.

(** The copy branch of [main] from the loop on: loop, footer, [fflush],
    the [ferror(input)] check and the size warning.  Returns the exit code so
    far, the device and whether the warning is printed. *)
Definition transfer (o : opts) (inp : file) (t : tty) : option (Z * tty * bool) :=
  match copy_loop (S (length (ungot inp ++ rest inp))) o (mkl inp t true 0 EXIT_SUCCESS) with
  | None => None
  | Some st =>
      let t' := snd (fputs (seq_end o) (dev st)) in
      let r := if err (input st) then ERR_IO else rc st in
      Some (r, t', input_len st >? OSC_SAFE_LIMIT)
  end.

(** Joining the command-line arguments into [buf[OSC_SAFE_LIMIT]];
    [None] is the ["Command line is too long"] error. *)
Fixpoint join_args (buf : list Z) (args : list (list Z)) : option (list Z) :=
  match args with
  | [] => Some buf
  | a :: more =>
      if Z.of_nat (length buf) + Z.of_nat (length a) + 2 >? OSC_SAFE_LIMIT then None
      else join_args ((if (0 <? length buf)%nat then buf ++ [32] else buf) ++ a) more
  end.

(** ** The cursor-position query ([get_cursor_column]) *)

Definition c_isspace (c : Z) : bool := (c =? 32) || ((9 <=? c) && (c <=? 13)).
Definition c_isdigit (c : Z) : bool := (48 <=? c) && (c <=? 57).

Fixpoint skip_space (l : list Z) : list Z :=
  match l with
  | c :: r => if c_isspace c then skip_space r else l
  | [] => []
  end.

Fixpoint span_digits (l : list Z) : list Z * list Z :=
  match l with
  | c :: r => if c_isdigit c then let (ds, r') := span_digits r in (c :: ds, r') else ([], l)
  | [] => ([], [])
  end.

Definition digits_value (ds : list Z) : Z :=
  fold_left (fun acc d => acc * 10 + (d - 48)) ds 0.

(** A [%d] conversion of [sscanf] (the value is not truncated to [int]). *)
Definition scan_d (l : list Z) : option (Z * list Z) :=
  let l1 := skip_space l in
  let '(sign, l2) := match l1 with
                     | 45 :: r => (-1, r)
                     | 43 :: r => (1, r)
                     | _ => (1, l1)
                     end in
  let (ds, r) := span_digits l2 in
  match ds with [] => None | _ => Some (sign * digits_value ds, r) end.

(** [sscanf(buf, "\033[%d;%dR", &row, &col) == 2]: the values of both
    conversions, when both succeed. *)
Definition sscanf_cpr (s : list Z) : option (Z * Z) :=
  match s with
  | 27 :: 91 :: r =>
      match scan_d r with
      | Some (row, 59 :: r2) =>
          match scan_d r2 with Some (col, _) => Some (row, col) | None => None end
      | _ => None
      end
  | _ => None
  end.

(** The C string held in [buf]: up to its first NUL. *)
Fixpoint cstr (l : list Z) : list Z :=
  match l with
  | 0 :: _ => []
  | c :: r => c :: cstr r
  | [] => []
  end.

(** The reading loop: at most [n] bytes, stopping after ['R'];
    [None] when [fgetc] returns a negative value. *)
Fixpoint read_reply (n : nat) (t : tty) : option (list Z) * tty :=
  match n with
  | O => (Some [], t)
  | S m =>
      let (ch, t1) := tty_fgetc t in
      if ch <? 0 then (None, t1)
      else if ch =? 82 then (Some [ch], t1)
      else let (r, t2) := read_reply m t1 in
           (match r with Some l => Some (ch :: l) | None => None end, t2)
  end.

Definition get_cursor_column (t : tty) : Z * tty :=
  let (r, t1) := fputs ([ESC] ++ str "[6n") t in
  if r <? 0 then (-1, t1)
  else
    match read_reply 15 t1 with
    | (None, t2) => (-1, t2)
    | (Some buf, t2) =>
        match sscanf_cpr (cstr buf) with
        | Some (_, col) => (col, t2)
        | None => (-1, t2)
        end
    end.

(** ** [main] *)

(** The test branch: [rc] is [ERR_GENERAL] unless both columns are valid and
    equal. *)
Definition probe (o : opts) (t : tty) : Z * tty :=
  let t0 := snd (fputs [ESC; 55] t) in
  let (col, t1) := get_cursor_column t0 in
  let t2 := snd (fputs (seq_start o ++ seq_end o) t1) in
  let (col2, t3) := get_cursor_column t2 in
  if (col <? 0) || (col2 <? 0) || negb (col =? col2) then
    (ERR_GENERAL, snd (fputs [ESC; 56] t3))
  else (EXIT_SUCCESS, t3).

Definition clear (o : opts) (t : tty) : tty :=
  snd (fputs (seq_start o ++ str "!" ++ seq_end o) t).

(** What [main] is run on, once the options are parsed and the device
    [opts.tty_path] is opened: whether it is a terminal, the operands
    [argv[optind..]], [stdin], and the opened device. *)
Record env := mkenv {
  isatty : bool;
  args : list (list Z);
  stdin : file;
  dev0 : tty
}.

(** [main] from the opening of [tty] on: the exit code and the device;
    [None] is an abort by an assertion. *)
Definition main (o : opts) (e : env) : option (Z * tty) :=
  let t0 := dev0 e in
  let t1 := if isatty e then log (log t0 ModeSave) ModeSet else t0 in
  let restore t := if isatty e then log t ModeRestore else t in
  let finish (r : Z) (t : tty) := Some (if ferror_tty t then ERR_IO else r, restore t) in
  match op o with
  | OP_TEST => let (r, t) := probe o t1 in finish r t
  | OP_CLEAR => finish EXIT_SUCCESS (clear o t1)
  | OP_WRITE =>
      let inp := match args e with
                 | [] => Some (stdin e)
                 | _ => match join_args [] (args e) with
                        | Some buf => Some (open_file buf false)
                        | None => None
                        end
                 end in
      match inp with
      | None => Some (ERR_GENERAL, restore t1)
      | Some f =>
          match transfer o f t1 with
          | None => None
          | Some (r, t, _) => finish r t
          end
      end
  end.

(** ** Observations used in the statements *)

(** Scanning for payload: the leading run of base64 characters and ['=']. *)
Fixpoint b64_run (l : list Z) : list Z :=
  match l with
  | c :: r => if is_b64_char c || (c =? 61) then c :: b64_run r else []
  | [] => []
  end.

(** The bytes a stream still delivers: the pushed-back ones, then, unless the
    end-of-file indicator is set, the rest of the file. *)
Definition readable (f : file) : list Z :=
  ungot f ++ (if eof f then [] else rest f).

Definition is_wr (e : event) : bool := match e with Wr _ _ => true | _ => false end.

Definition is_failed (e : event) : bool := match e with Wr false _ => true | _ => false end.

Definition list_Z_eqb (l m : list Z) : bool :=
  if list_eq_dec Z.eq_dec l m then true else false.

(** A payload write: a non-empty base64 string. *)
Definition is_payload (bs : list Z) : bool :=
  (0 <? length bs)%nat && forallb (fun c => is_b64_char c || (c =? 61)) bs.

Definition is_header_ev (o : opts) (e : event) : bool :=
  match e with Wr _ bs => list_Z_eqb bs (seq_start o) | _ => false end.

Definition is_footer_ev (o : opts) (e : event) : bool :=
  match e with Wr _ bs => list_Z_eqb bs (seq_end o) | _ => false end.

Definition is_payload_ev (e : event) : bool :=
  match e with Wr _ bs => is_payload bs | _ => false end.

(** The header is written at most once, and before every payload write
    ([seen]: the header has been written). *)
Fixpoint header_first (o : opts) (seen : bool) (l : list event) : bool :=
  match l with
  | [] => true
  | e :: r =>
      if is_header_ev o e then negb seen && header_first o true r
      else if is_payload_ev e then seen && header_first o seen r
      else header_first o seen r
  end.

(** A failed payload write is the last event. *)
Fixpoint payload_failure_last (l : list event) : bool :=
  match l with
  | [] => true
  | e :: r =>
      if is_payload_ev e && is_failed e then match r with [] => true | _ => false end
      else payload_failure_last r
  end.

(** The writes of one iteration of the copy loop that gets to its [fwrite]:
    the outcome of each write, and the payload [enc]. *)
Definition iteration_events (o : opts) (wh ok1 ok2 ok3 ok4 : bool) (enc : list Z) : list event :=
  (if is_screen o then [Wr ok1 [ESC; 80]] else [])
  ++ (if wh then [Wr ok2 (seq_start o)] else [])
  ++ [Wr ok3 enc]
  ++ (if ok3 && is_screen o then [Wr ok4 [ESC; 92]] else []).

Definition bytes_file (f : file) : Prop := Forall is_byte (ungot f ++ rest f).

(** [t'] is [t] after the device events [mid]: the error indicator records
    their failures, the terminal input is untouched. *)
Definition tty_ext (t t' : tty) (mid : list event) : Prop :=
  trace t' = trace t ++ mid /\ terr t' = terr t || existsb is_failed mid /\ tin t' = tin t.

(** The number of bytes a stream still holds, pushed back or not. *)
Definition held (f : file) : nat := length (ungot f ++ rest f).

Definition payload_failed (e : event) : bool := is_payload_ev e && is_failed e.

(** The termios calls of [main] around the operation. *)
Definition mode_enter (e : env) : list event := if isatty e then [ModeSave; ModeSet] else [].
Definition mode_leave (e : env) : list event := if isatty e then [ModeRestore] else [].

(** A device on which every write succeeds and no reply is pending, and the
    default options of the copy operation. *)
Definition quiet_tty : tty := mktty [] false [] (open_file [] false).
Definition write_opts : opts := mkopts OP_WRITE false false false false.

(** A device whose first write fails and whose later writes succeed. *)
Definition fail_first_tty : tty := mktty [] false [false] (open_file [] false).

(** [t'] is [t] after some writes and no termios call. *)
Definition wr_ext (t t' : tty) : Prop :=
  exists mid, trace t' = trace t ++ mid /\ forallb is_wr mid = true.

(** Options of the clear operation, on a plain terminal. *)
Definition clear_opts : opts := mkopts OP_CLEAR false false false false.

(** The copy operation with [-n] (trim the trailing newline). *)
Definition trim_opts (sc tm pr : bool) : opts := mkopts OP_WRITE sc tm pr true.

(** The exit code of [main] and what reached the device. *)
Definition main_output (o : opts) (e : env) : option (Z * list Z) :=
  option_map (fun p => (fst p, output (trace (snd p)))) (main o e).

(** [main] copying [s] from [stdin], off a terminal, on a quiet device. *)
Definition stdin_env (s : list Z) : env := mkenv false [] (open_file s false) quiet_tty.

(** A device whose terminal sends the bytes [s]. *)
Definition reply_tty (s : list Z) : tty := mktty [] false [] (open_file s false).

(** Options of the probe, on a plain terminal. *)
Definition test_opts : opts := mkopts OP_TEST false false false false.

(** The device events of the copy loop when every write succeeds: one
    iteration per chunk, the header with the first. *)
Fixpoint frames_events (o : opts) (wh : bool) (cs : list (list Z)) : list event :=
  match cs with
  | [] => []
  | c :: r => iteration_events o wh true true true true (b64_loop c) ++ frames_events o false r
  end.

(** Options of the copy operation under GNU screen. *)
Definition screen_opts : opts := mkopts OP_WRITE true false false false.

(** ** Describing a whole copy *)

(** [l] cut into pieces of [n] bytes, the last one possibly shorter. *)
Fixpoint chunks_fuel (fuel n : nat) (l : list Z) : list (list Z) :=
  match fuel with
  | O => []
  | S f => match l with [] => [] | _ => firstn n l :: chunks_fuel f n (skipn n l) end
  end.

Definition chunk_list (n : nat) (l : list Z) : list (list Z) := chunks_fuel (length l) n l.

(** The input with its final newline removed when trimming is on. *)
Definition trimmed (o : opts) (l : list Z) : list Z :=
  if trim_newline o && (last l 0 =? 10) then removelast l else l.

(** The stream once a read has reached the end of [fmemopen]'s buffer or of
    [stdin]: the end-of-file indicator set, or with [fail_at_end] the error
    indicator. *)
Definition at_end (fa : bool) : file :=
  if fa then mkfile [] [] false true true else mkfile [] [] true false false.

(** The states a stream opened on some bytes ([open_file _ fa]) goes
    through under [fread] and [fpeek], still delivering [l]. *)
Definition reads (fa : bool) (f : file) (l : list Z) : Prop :=
  f = mkfile [] l false false fa
  \/ (exists c r, l = c :: r /\ f = mkfile [c] r false false fa)
  \/ (l = [] /\ f = at_end fa).

(** ** The joined arguments and the cursor report *)

(** The arguments with the leading empty ones dropped. *)
Fixpoint drop_empty (l : list (list Z)) : list (list Z) :=
  match l with
  | [] :: r => drop_empty r
  | _ => l
  end.

(** The arguments separated by single spaces. *)
Definition join_sp (l : list (list Z)) : list Z :=
  match l with
  | [] => []
  | a :: r => a ++ concat (map (cons 32) r)
  end.

(** A byte [fgetc] can deliver that is not ['R']. *)
Definition no_R (c : Z) : bool := (0 <=? c) && negb (c =? 82).

(** A cursor position report [ESC [ row ; col R]. *)
Definition cpr_reply (ds1 ds2 : list Z) : list Z := [ESC; 91] ++ ds1 ++ [59] ++ ds2 ++ [82].

(** Both fields of a report are decimal numbers that fit in an [int], and
    the report fits in [buf]. *)
Definition cpr_valid (ds1 ds2 : list Z) : Prop :=
  ds1 <> [] /\ ds2 <> [] /\ forallb c_isdigit (ds1 ++ ds2) = true
  /\ (length ds1 + length ds2 <= 11)%nat /\ digits_value ds1 < 2 ^ 31 /\ digits_value ds2 < 2 ^ 31.

(** The cursor position query of [get_cursor_column]. *)
Definition cpr_query : list Z := [ESC] ++ str "[6n".

(** ** Option parsing ([str_startswith], [str_equal], [parse_opts]) *)

(** [strncmp] and [strcmp] on C strings held without their terminating NUL:
    past the end a string reads as NUL. *)
Fixpoint strncmp (n : nat) (s1 s2 : list Z) : Z :=
  match n with
  | O => 0
  | S m =>
      let c1 := hd 0 s1 in
      let c2 := hd 0 s2 in
      if negb (c1 =? c2) then c1 - c2
      else if c1 =? 0 then 0
      else strncmp m (tl s1) (tl s2)
  end.

Fixpoint strcmp (s1 s2 : list Z) : Z :=
  match s1, s2 with
  | [], [] => 0
  | [], c2 :: _ => 0 - c2
  | c1 :: _, [] => c1
  | c1 :: r1, c2 :: r2 => if c1 =? c2 then (if c1 =? 0 then 0 else strcmp r1 r2) else c1 - c2
  end.

Definition str_startswith (s prefix : list Z) : bool := strncmp (length prefix) s prefix =? 0.

Definition str_equal (s1 s2 : list Z) : bool := strcmp s1 s2 =? 0.

(** The static [opts] of [parse_opts]; [c_op] is [0] until set. *)
Record cli := mkcli {
  c_op : Z;
  c_screen : bool;
  c_tmux : bool;
  c_primary : bool;
  c_trim : bool;
  c_tty_path : option (list Z)
}.

Definition cli0 : cli := mkcli 0 false false false false None.

Definition set_op (o : cli) (v : Z) : cli :=
  mkcli v (c_screen o) (c_tmux o) (c_primary o) (c_trim o) (c_tty_path o).

Definition set_trim (o : cli) : cli :=
  mkcli (c_op o) (c_screen o) (c_tmux o) (c_primary o) true (c_tty_path o).

Definition set_primary (o : cli) : cli :=
  mkcli (c_op o) (c_screen o) (c_tmux o) true (c_trim o) (c_tty_path o).

Definition set_tty_path (o : cli) (p : list Z) : cli :=
  mkcli (c_op o) (c_screen o) (c_tmux o) (c_primary o) (c_trim o) (Some p).

Definition set_term (o : cli) (sc tm : bool) : cli :=
  mkcli (c_op o) sc tm (c_primary o) (c_trim o) (c_tty_path o).

(** The [val] fields of [long_opts], the terminating entry included. *)
Definition long_vals : list Z := [99; 111; 112; 84; 116; 110; 104; 86; 0].

(** [if (optch == 0) optch = long_opts[optidx].val;]. *)
Definition optch_of (g : Z * nat * list Z) : Z :=
  let '(optch, optidx, _) := g in if optch =? 0 then nth optidx long_vals 0 else optch.

(** How [parse_opts] leaves the program through [exit]: after printing the
    help, after printing the version, or on an unknown option. *)
Inductive pexit := PHelp | PVersion | PUsage.

(** The [while] loop over the results of [getopt_long]: each one is
    [(optch, optidx, optarg)]; the term type is what [-T] stored. *)
Fixpoint parse_loop (gs : list (Z * nat * list Z)) (o : cli) (term_type : option (list Z))
  : pexit + (cli * option (list Z)) :=
  match gs with
  | [] => inr (o, term_type)
  | (optch0, optidx, optarg) :: more =>
      let optch := optch_of (optch0, optidx, optarg) in
      if optch =? 99 then parse_loop more (set_op o 99) term_type
      else if optch =? 110 then parse_loop more (set_trim o) term_type
      else if optch =? 111 then parse_loop more (set_tty_path o optarg) term_type
      else if optch =? 112 then parse_loop more (set_primary o) term_type
      else if optch =? 84 then parse_loop more o (Some optarg)
      else if optch =? 116 then parse_loop more (set_op o 116) term_type
      else if optch =? 104 then inl PHelp
      else if optch =? 86 then inl PVersion
      else inl PUsage
  end.

(** [getenv] over the environment as a list of [(name, value)]. *)
Definition getenv (envp : list (list Z * list Z)) (name : list Z) : option (list Z) :=
  option_map snd (find (fun kv => if list_eq_dec Z.eq_dec (fst kv) name then true else false) envp).

(** [parse_opts] on the results of [getopt_long] and the environment: an
    exit, or the options. *)
Definition parse_opts (gs : list (Z * nat * list Z)) (envp : list (list Z * list Z)) : pexit + cli :=
  match parse_loop gs cli0 None with
  | inl x => inl x
  | inr (o, term_type) =>
      let o1 := if c_op o =? 0 then set_op o 119 else o in
      let o2 := match c_tty_path o1 with None => set_tty_path o1 (str "/dev/tty") | Some _ => o1 end in
      match term_type with
      | Some ty => inr (set_term o2 (str_equal ty (str "screen")) (str_equal ty (str "tmux")))
      | None =>
          match getenv envp (str "TERM") with
          | Some term =>
              if str_startswith term (str "screen") then
                match getenv envp (str "TMUX") with
                | Some _ => inr (set_term o2 (c_screen o2) true)
                | None => inr (set_term o2 true (c_tmux o2))
                end
              else if str_startswith term (str "tmux") then inr (set_term o2 (c_screen o2) true)
              else inr o2
          | None => inr o2
          end
      end
  end.

(** The options the loop handles without exiting. *)
Definition loop_opt (ch : Z) : bool := existsb (Z.eqb ch) [99; 110; 111; 112; 84; 116].

(** The options [parse_opts] sets past its loop, apart from the terminal type. *)
Definition cli_defaults (o : cli) : cli :=
  let o1 := if c_op o =? 0 then set_op o 119 else o in
  match c_tty_path o1 with None => set_tty_path o1 (str "/dev/tty") | Some _ => o1 end.

(** An option that is neither [-c] nor [-t]. *)
Definition not_op_opt (g : Z * nat * list Z) : Prop := optch_of g <> 99 /\ optch_of g <> 116.

(** ** [term_change_local_modes] *)

(** The termios state of the device as [term_change_local_modes] sees it:
    the local modes, and whether [tcgetattr] and [tcsetattr] succeed. *)
Record termios_dev := mkterm {
  lflag : Z;
  get_ok : bool;
  set_ok : bool
}.

(** [tcflag_t] is a 32-bit unsigned integer. *)
Definition tcflag (x : Z) : Z := x mod 2 ^ 32.

(** The constants of Linux's [termios.h]; [CREAD] is a [c_cflag] bit. *)
Definition CREAD : Z := 128.

Definition ECHO : Z := 8.

Definition ICANON : Z := 2.

(** [term_change_local_modes(fd, c_lflag)]. *)
Definition term_change_local_modes (d : termios_dev) (c_lflag : Z) : Z * termios_dev :=
  if negb (get_ok d) then (-1, d)
  else
    let l := Z.land (lflag d) c_lflag in
    if set_ok d then (0, mkterm l (get_ok d) (set_ok d)) else (-1, d).

(** The argument [main] passes: [~(CREAD | ECHO | ICANON)] converted to [tcflag_t]. *)
Definition main_lflag_mask : Z := tcflag (Z.lnot (Z.lor CREAD (Z.lor ECHO ICANON))).

(** ** Finite checks over byte ranges *)

Definition all_below (n : nat) (p : Z -> bool) : bool :=
  forallb p (map Z.of_nat (seq 0 n)).

Lemma all_below_spec n p :
  all_below n p = true -> forall x, 0 <= x < Z.of_nat n -> p x = true.
Proof.
  unfold all_below. rewrite forallb_forall. intros H x Hx.
  apply H. apply in_map_iff. exists (Z.to_nat x). split.
  - apply Z2Nat.id. lia.
  - apply in_seq. lia.
Qed.

Definition single_facts (x : Z) : bool :=
  (0 <=? Z.shiftr x 2) && (Z.shiftr x 2 <? 64)
  && (0 <=? Z.land x 63) && (Z.land x 63 <? 64)
  && (0 <=? Z.shiftl (Z.land x 3) 4) && (Z.shiftl (Z.land x 3) 4 <? 64)
  && (0 <=? Z.shiftl (Z.land x 15) 2) && (Z.shiftl (Z.land x 15) 2 <? 64)
  && (Z.lor (Z.shiftl (Z.shiftr x 2) 2) (Z.shiftr (Z.shiftl (Z.land x 3) 4) 4) =? x)
  && (Z.lor (Z.shiftl (Z.shiftr x 4) 4) (Z.land x 15) =? x).

Definition pair_facts (x y : Z) : bool :=
  let p := Z.lor (Z.shiftl (Z.land x 3) 4) (Z.shiftr y 4) in
  let q := Z.lor (Z.shiftl (Z.land x 15) 2) (Z.shiftr y 6) in
  (0 <=? p) && (p <? 64) && (0 <=? q) && (q <? 64)
  && (Z.lor (Z.shiftl (Z.shiftr x 2) 2) (Z.shiftr p 4) =? x)
  && (Z.land p 15 =? Z.shiftr y 4)
  && (Z.shiftr q 2 =? Z.land x 15)
  && (Z.lor (Z.shiftl (Z.land q 3) 6) (Z.land y 63) =? y)
  && (Z.lor (Z.shiftl (Z.land p 15) 4) (Z.shiftr (Z.shiftl (Z.land y 15) 2) 2) =? y).

Definition table_facts (i : Z) : bool :=
  match rfc4648_char_value (tbl i) with
  | Some j => j =? i
  | None => false
  end.

Lemma all_single : all_below 256 single_facts = true.
Proof. vm_compute. reflexivity. Qed.

Lemma all_pair : all_below 256 (fun x => all_below 256 (pair_facts x)) = true.
Proof. vm_compute. reflexivity. Qed.

Lemma all_table : all_below 64 table_facts = true.
Proof. vm_compute. reflexivity. Qed.

Ltac split_bools :=
  repeat match goal with
  | H : (_ && _) = true |- _ => apply andb_prop in H; destruct H
  | H : (_ =? _) = true |- _ => apply Z.eqb_eq in H
  | H : (_ <=? _) = true |- _ => apply Z.leb_le in H
  | H : (_ <? _) = true |- _ => apply Z.ltb_lt in H
  end.

Lemma single_ok x : is_byte x ->
  0 <= Z.shiftr x 2 < 64 /\ 0 <= Z.land x 63 < 64
  /\ 0 <= Z.shiftl (Z.land x 3) 4 < 64 /\ 0 <= Z.shiftl (Z.land x 15) 2 < 64
  /\ Z.lor (Z.shiftl (Z.shiftr x 2) 2) (Z.shiftr (Z.shiftl (Z.land x 3) 4) 4) = x
  /\ Z.lor (Z.shiftl (Z.shiftr x 4) 4) (Z.land x 15) = x.
Proof.
  intros Hx. pose proof (all_below_spec _ _ all_single x ltac:(unfold is_byte in *; simpl; lia)) as H.
  unfold single_facts in H. split_bools. repeat split; assumption.
Qed.

Lemma pair_ok x y : is_byte x -> is_byte y ->
  let p := Z.lor (Z.shiftl (Z.land x 3) 4) (Z.shiftr y 4) in
  let q := Z.lor (Z.shiftl (Z.land x 15) 2) (Z.shiftr y 6) in
  0 <= p < 64 /\ 0 <= q < 64
  /\ Z.lor (Z.shiftl (Z.shiftr x 2) 2) (Z.shiftr p 4) = x
  /\ Z.land p 15 = Z.shiftr y 4
  /\ Z.shiftr q 2 = Z.land x 15
  /\ Z.lor (Z.shiftl (Z.land q 3) 6) (Z.land y 63) = y
  /\ Z.lor (Z.shiftl (Z.land p 15) 4) (Z.shiftr (Z.shiftl (Z.land y 15) 2) 2) = y.
Proof.
  intros Hx Hy. unfold is_byte in *.
  pose proof (all_below_spec _ _ all_pair x ltac:(simpl; lia)) as H.
  pose proof (all_below_spec _ _ H y ltac:(simpl; lia)) as H'.
  unfold pair_facts in H'. split_bools. cbv zeta. repeat split; assumption.
Qed.

Lemma tbl_value i : 0 <= i < 64 -> rfc4648_char_value (tbl i) = Some i.
Proof.
  intros Hi. pose proof (all_below_spec _ _ all_table i ltac:(simpl; lia)) as H.
  unfold table_facts in H. destruct (rfc4648_char_value (tbl i)); [|discriminate].
  apply Z.eqb_eq in H. subst. reflexivity.
Qed.

Lemma tbl_not_pad i : 0 <= i < 64 -> (tbl i =? 61) = false.
Proof.
  intros Hi. apply Z.eqb_neq. intros E. pose proof (tbl_value i Hi) as V.
  rewrite E in V. discriminate.
Qed.

Lemma tbl_in i : 0 <= i < 64 -> In (tbl i) b64_table.
Proof.
  intros Hi. unfold tbl. apply nth_In. unfold b64_table. simpl. lia.
Qed.

Lemma strong_list_ind (P : list Z -> Prop) :
  (forall s, (forall t, (length t < length s)%nat -> P t) -> P s) -> forall s, P s.
Proof.
  intros H s. remember (length s) as n eqn:En.
  revert s En. induction (lt_wf n) as [n _ IH]. intros s En.
  apply H. intros t Ht. apply (IH (length t)); [lia | reflexivity].
Qed.

Lemma b64_loop_roundtrip s :
  Forall is_byte s -> rfc4648_decode (b64_loop s) = Some s.
Proof.
  induction s as [s IH] using strong_list_ind. intros Hs.
  destruct s as [|a [|b [|c rest]]].
  - reflexivity.
  - inversion Hs as [|? ? Ha _]. subst.
    destruct (single_ok a Ha) as (H1 & H2 & H3 & H4 & H5 & H6).
    cbn [b64_loop rfc4648_decode].
    rewrite (tbl_value _ H1), (tbl_value _ H3). cbn -[Z.shiftl Z.shiftr Z.lor Z.land]. rewrite H5. reflexivity.
  - inversion Hs as [|? ? Ha Hs']. inversion Hs' as [|? ? Hb _]. subst.
    destruct (single_ok b Hb) as (_ & _ & _ & H4 & _).
    destruct (single_ok a Ha) as (H1 & _).
    destruct (pair_ok a b Ha Hb) as (P1 & _ & P3 & _ & _ & _ & P7).
    cbn [b64_loop rfc4648_decode].
    rewrite (tbl_value _ H1), (tbl_value _ P1), (tbl_not_pad _ H4), (tbl_value _ H4).
    cbn -[Z.shiftl Z.shiftr Z.lor Z.land]. rewrite P3, P7. reflexivity.
  - inversion Hs as [|? ? Ha Hs']. inversion Hs' as [|? ? Hb Hs''].
    inversion Hs'' as [|? ? Hc Hrest]. subst.
    destruct (single_ok a Ha) as (H1 & _).
    destruct (single_ok b Hb) as (_ & _ & _ & _ & _ & Sb).
    destruct (single_ok c Hc) as (_ & H2 & _).
    destruct (pair_ok a b Ha Hb) as (P1 & _ & P3 & P4 & _).
    destruct (pair_ok b c Hb Hc) as (_ & Q1 & _ & _ & Q5 & Q6 & _).
    cbn [b64_loop rfc4648_decode].
    rewrite (tbl_value _ H1), (tbl_value _ P1), (tbl_not_pad _ Q1), (tbl_value _ Q1),
      (tbl_not_pad _ H2), (tbl_value _ H2).
    rewrite (IH rest ltac:(simpl; lia) Hrest).
    rewrite P3, P4, Q5, Q6, Sb. reflexivity.
Qed.

Lemma b64_loop_length s :
  length (b64_loop s) = ((length s + 2) / 3 * 4)%nat.
Proof.
  induction s as [s IH] using strong_list_ind.
  destruct s as [|a [|b [|c rest]]]; try reflexivity.
  cbn [b64_loop length]. rewrite (IH rest ltac:(simpl; lia)).
  replace (S (S (S (length rest))) + 2)%nat with (length rest + 2 + 1 * 3)%nat by lia.
  rewrite Nat.div_add by lia. lia.
Qed.

Lemma b64_loop_alphabet s :
  Forall is_byte s -> Forall (fun c => In c b64_table \/ c = 61) (b64_loop s).
Proof.
  induction s as [s IH] using strong_list_ind. intros Hs.
  destruct s as [|a [|b [|c rest]]].
  - constructor.
  - inversion Hs as [|? ? Ha _]. subst.
    destruct (single_ok a Ha) as (H1 & H2 & H3 & H4 & _).
    repeat apply Forall_cons; try apply Forall_nil;
      try (left; apply tbl_in; assumption); try (right; reflexivity).
  - inversion Hs as [|? ? Ha Hs']. inversion Hs' as [|? ? Hb _]. subst.
    destruct (single_ok a Ha) as (H1 & _).
    destruct (single_ok b Hb) as (_ & _ & _ & H4 & _).
    destruct (pair_ok a b Ha Hb) as (P1 & _).
    repeat apply Forall_cons; try apply Forall_nil;
      try (left; apply tbl_in; assumption); try (right; reflexivity).
  - inversion Hs as [|? ? Ha Hs']. inversion Hs' as [|? ? Hb Hs''].
    inversion Hs'' as [|? ? Hc Hrest]. subst.
    destruct (single_ok a Ha) as (H1 & _).
    destruct (single_ok c Hc) as (_ & H2 & _).
    destruct (pair_ok a b Ha Hb) as (P1 & _).
    destruct (pair_ok b c Hb Hc) as (_ & Q1 & _).
    cbn [b64_loop]. repeat apply Forall_cons;
      try (left; apply tbl_in; assumption).
    apply IH; [simpl; lia | exact Hrest].
Qed.

(** The canonical padding: the encoding is alphabet characters followed by
    exactly as many ['='] as the last group lacks bytes. *)
Lemma b64_loop_shape s :
  Forall is_byte s ->
  exists body, b64_loop s = body ++ repeat 61 ((3 - length s mod 3) mod 3)
    /\ Forall (fun c => In c b64_table) body.
Proof.
  induction s as [s IH] using strong_list_ind. intros Hs.
  destruct s as [|a [|b [|c rest]]].
  - exists []. split; [reflexivity | constructor].
  - inversion Hs as [|? ? Ha _]. subst.
    destruct (single_ok a Ha) as (H1 & H2 & H3 & H4 & _).
    exists [tbl (Z.shiftr a 2); tbl (Z.shiftl (Z.land a 3) 4)]. split; [reflexivity|].
    repeat apply Forall_cons; try apply Forall_nil; apply tbl_in; assumption.
  - inversion Hs as [|? ? Ha Hs']. inversion Hs' as [|? ? Hb _]. subst.
    destruct (single_ok a Ha) as (H1 & _).
    destruct (single_ok b Hb) as (_ & _ & _ & H4 & _).
    destruct (pair_ok a b Ha Hb) as (P1 & _).
    exists [tbl (Z.shiftr a 2);
       tbl (Z.lor (Z.shiftl (Z.land a 3) 4) (Z.shiftr b 4));
       tbl (Z.shiftl (Z.land b 15) 2)]. split; [reflexivity|].
    repeat apply Forall_cons; try apply Forall_nil; apply tbl_in; assumption.
  - inversion Hs as [|? ? Ha Hs']. inversion Hs' as [|? ? Hb Hs''].
    inversion Hs'' as [|? ? Hc Hrest]. subst.
    destruct (single_ok a Ha) as (H1 & _).
    destruct (single_ok c Hc) as (_ & H2 & _).
    destruct (pair_ok a b Ha Hb) as (P1 & _).
    destruct (pair_ok b c Hb Hc) as (_ & Q1 & _).
    destruct (IH rest ltac:(simpl; lia) Hrest) as (body & Eb & Fb).
    exists (tbl (Z.shiftr a 2)
      :: tbl (Z.lor (Z.shiftl (Z.land a 3) 4) (Z.shiftr b 4))
      :: tbl (Z.lor (Z.shiftl (Z.land b 15) 2) (Z.shiftr c 6))
      :: tbl (Z.land c 63) :: body).
    split.
    + cbn [b64_loop]. rewrite Eb.
      replace (length (a :: b :: c :: rest)) with (length rest + 1 * 3)%nat by (simpl; lia).
      rewrite Nat.Div0.mod_add. reflexivity.
    + repeat apply Forall_cons; try (apply tbl_in; assumption). exact Fb.
Qed.

Lemma encoded_size_no_wrap n :
  0 <= n < 2 ^ 62 -> base64_encoded_size n = (n + 2) / 3 * 4 + 1.
Proof.
  intros Hn. unfold base64_encoded_size, size_t.
  pose proof (Z.div_mod (n + 2) 3 ltac:(lia)).
  pose proof (Z.mod_pos_bound (n + 2) 3 ltac:(lia)).
  rewrite (Z.mod_small (n + 2)) by lia.
  rewrite (Z.mod_small ((n + 2) / 3 * 4)) by lia.
  rewrite Z.mod_small by lia. reflexivity.
Qed.

(** ** C1 *)

(** C1: for every byte sequence [src] (of a length that does not wrap
    [size_t]), [base64_encoded_size] is [ceil(n/3)*4 + 1]; [base64_encode]
    aborts on a smaller destination and otherwise writes the canonical RFC
    4648 encoding (alphabet characters followed by the ['='] padding, of
    length [ceil(n/3)*4], a multiple of 4) and one NUL byte, returns the
    length without the NUL, and the encoding decodes back to [src]. *)
Theorem base64_encode_spec (src : list Z) (dstlen : Z) :
  Forall is_byte src -> Z.of_nat (length src) < 2 ^ 62 ->
  let n := Z.of_nat (length src) in
  base64_encoded_size n = (n + 2) / 3 * 4 + 1 /\
  (dstlen < (n + 2) / 3 * 4 + 1 -> base64_encode src dstlen = None) /\
  (dstlen >= (n + 2) / 3 * 4 + 1 ->
   exists enc body,
     base64_encode src dstlen = Some (enc ++ [0], (n + 2) / 3 * 4)
     /\ Z.of_nat (length enc) = (n + 2) / 3 * 4
     /\ Z.of_nat (length enc) mod 4 = 0
     /\ enc = body ++ repeat 61 ((3 - length src mod 3) mod 3)
     /\ Forall (fun c => In c b64_table) body
     /\ rfc4648_decode enc = Some src).
Proof.
  intros Hs Hn n.
  assert (Esz : base64_encoded_size n = (n + 2) / 3 * 4 + 1)
    by (apply encoded_size_no_wrap; lia).
  assert (Elen : Z.of_nat (length (b64_loop src)) = (n + 2) / 3 * 4).
  { rewrite b64_loop_length. subst n.
    rewrite Nat2Z.inj_mul, Nat2Z.inj_div, Nat2Z.inj_add. reflexivity. }
  split; [exact Esz|]. split.
  - intros Hd. unfold base64_encode. fold n. rewrite Esz.
    destruct (Z.geb_spec dstlen ((n + 2) / 3 * 4 + 1)); [lia | reflexivity].
  - intros Hd. destruct (b64_loop_shape src Hs) as (body & Eb & Fb).
    exists (b64_loop src), body. unfold base64_encode. fold n. rewrite Esz.
    destruct (Z.geb_spec dstlen ((n + 2) / 3 * 4 + 1)); [|lia].
    rewrite Elen. repeat split; auto using b64_loop_roundtrip.
    apply Z_mod_mult.
Qed.

Lemma base64_encode_spec_witness :
  Forall is_byte (str "hello") /\ Z.of_nat (length (str "hello")) < 2 ^ 62
  /\ base64_encoded_size 5 = 9
  /\ exists enc, base64_encode (str "hello") 9 = Some (enc ++ [0], 8)
         /\ rfc4648_decode enc = Some (str "hello").
Proof.
  assert (Hb : Forall is_byte (str "hello"))
    by (repeat constructor; unfold is_byte; lia).
  assert (Hl : Z.of_nat (length (str "hello")) < 2 ^ 62) by (vm_compute; reflexivity).
  destruct (base64_encode_spec (str "hello") 9 Hb Hl) as (Hs & _ & H).
  destruct (H ltac:(vm_compute; discriminate)) as (enc & body & E & _ & _ & _ & _ & D).
  split; [exact Hb|]. split; [exact Hl|]. split; [exact Hs|].
  exists enc. split; [exact E | exact D].
Defined.

(** ** C2 *)

(** C2: the header and footer depend on the multiplexer and the selection
    only; under tmux with the primary selection they are
    ["\x1bPtmux;\x1b\x1b]52;p;"] and ["\x07\x1b\\"], with no multiplexer and
    the clipboard ["\x1b]52;c;"] and ["\x07"]. *)
Theorem seq_start_end_config :
  (forall o o', is_tmux o = is_tmux o' -> primary o = primary o' ->
     seq_start o = seq_start o' /\ seq_end o = seq_end o')
  /\ (forall op tr,
       seq_start (mkopts op false true true tr)
         = [ESC] ++ str "Ptmux;" ++ [ESC; ESC] ++ str "]52;p;"
       /\ seq_end (mkopts op false true true tr) = [BEL; ESC] ++ str "\")
  /\ (forall op tr,
       seq_start (mkopts op false false false tr) = [ESC] ++ str "]52;c;"
       /\ seq_end (mkopts op false false false tr) = [BEL]).
Proof.
  split; [|split].
  - intros o o' Ht Hp. unfold seq_start, seq_end. rewrite Ht, Hp. split; reflexivity.
  - intros op tr. split; reflexivity.
  - intros op tr. split; reflexivity.
Qed.

(** ** C9 *)

(** C9 (as stated, refuted): the header without multiplexer contains the
    base64 characters ['5'], ['2'] and ['c'], so it is not the case that no
    header or footer byte is a base64-alphabet character. *)
Lemma header_b64_free_counterexample :
  ~ (forall o, forallb (fun c => negb (is_b64_char c)) (seq_start o ++ seq_end o) = true).
Proof.
  intros H. specialize (H (mkopts OP_WRITE false false false false)).
  vm_compute in H. discriminate.
Qed.

Lemma skipn_length_app (l m : list Z) : skipn (length l) (l ++ m) = m.
Proof. induction l as [|x l IH]; simpl; auto. Qed.

Lemma b64_run_app p m :
  Forall (fun c => is_b64_char c = true \/ c = 61) p ->
  b64_run (p ++ m) = p ++ b64_run m.
Proof.
  induction 1 as [|c p Hc _ IH]; [reflexivity|].
  simpl. destruct Hc as [Hc | Hc].
  - rewrite Hc. simpl. rewrite IH. reflexivity.
  - subst. simpl. rewrite IH. reflexivity.
Qed.

(** C9 (amended): no footer byte is a base64 character or ['=']; the header
    does contain alphabet characters but ends with [';'], which is not one;
    so for any base64 payload [p], scanning the frame [header ++ p ++ footer]
    from the end of the header up to the first non-base64 byte yields
    exactly [p]. *)
Theorem frame_delimiters (o : opts) (p : list Z) :
  Forall (fun c => is_b64_char c = true \/ c = 61) p ->
  forallb (fun c => negb (is_b64_char c) && negb (c =? 61)) (seq_end o) = true
  /\ last (seq_start o) 0 = 59 /\ is_b64_char 59 = false
  /\ b64_run (skipn (length (seq_start o)) (seq_start o ++ p ++ seq_end o)) = p.
Proof.
  intros Hp. split; [|split; [|split]].
  - unfold seq_end. destruct (is_tmux o); reflexivity.
  - unfold seq_start. destruct (is_tmux o), (primary o); reflexivity.
  - reflexivity.
  - rewrite skipn_length_app, b64_run_app by exact Hp.
    replace (b64_run (seq_end o)) with (@nil Z) by (unfold seq_end; destruct (is_tmux o); reflexivity).
    apply app_nil_r.
Qed.

Lemma frame_delimiters_witness :
  Forall (fun c => is_b64_char c = true \/ c = 61) (str "aGk=")
  /\ b64_run (skipn (length (seq_start (mkopts OP_WRITE false true true false)))
       (seq_start (mkopts OP_WRITE false true true false) ++ str "aGk="
        ++ seq_end (mkopts OP_WRITE false true true false))) = str "aGk=".
Proof.
  assert (Hp : Forall (fun c => is_b64_char c = true \/ c = 61) (str "aGk=")).
  { repeat constructor; first [left; reflexivity | right; reflexivity]. }
  split; [exact Hp|].
  destruct (frame_delimiters (mkopts OP_WRITE false true true false) (str "aGk=") Hp)
    as (_ & _ & _ & H). exact H.
Defined.

(** ** C10 *)

Lemma byte_not_eof c : is_byte c -> (c =? EOF) = false.
Proof. unfold is_byte, EOF. intros H. apply Z.eqb_neq. lia. Qed.

Lemma byte_not_m1 c : is_byte c -> (c =? -1) = false.
Proof. exact (byte_not_eof c). Qed.

Ltac not_eof Hc := first [rewrite (byte_not_eof _ Hc) | rewrite (byte_not_m1 _ Hc)].

Lemma fread_readable n f :
  Forall is_byte (ungot f ++ rest f) -> fst (fread n f) = firstn n (readable f).
Proof.
  revert f. induction n as [|n IH]; intros f Hf; [reflexivity|].
  destruct f as [u r e er fa]. unfold readable. cbn [ungot rest eof app] in *.
  cbn [fread]. unfold fgetc. cbn [ungot rest eof fail_at_end].
  destruct u as [|c u].
  - destruct e; [reflexivity|].
    destruct r as [|c r]; [destruct fa; reflexivity|].
    inversion Hf as [|? ? Hc Hr]. subst. not_eof Hc.
    unfold set_rest. cbn [ungot eof err fail_at_end].
    specialize (IH (mkfile [] r false er fa) Hr).
    destruct (fread n (mkfile [] r false er fa)) as [cs f2].
    cbn in *. rewrite IH. reflexivity.
  - inversion Hf as [|? ? Hc Hr]. subst. not_eof Hc.
    unfold set_ungot. cbn [rest eof err fail_at_end].
    specialize (IH (mkfile u r e er fa) Hr).
    destruct (fread n (mkfile u r e er fa)) as [cs f2].
    cbn in *. rewrite IH. destruct e; reflexivity.
Qed.

(** C10: [fpeek] returns the next byte the stream delivers ([EOF] when it
    delivers none) and leaves what the stream delivers unchanged: every later
    [fread] reads the same bytes as without the call, and the next [fgetc]
    returns the byte [fpeek] returned. *)
Theorem fpeek_spec (f : file) :
  Forall is_byte (ungot f ++ rest f) -> (eof f = true -> ungot f = []) ->
  let (ch, f') := fpeek f in
  ch = hd EOF (readable f)
  /\ readable f' = readable f
  /\ (forall n, fst (fread n f') = fst (fread n f))
  /\ fst (fgetc f') = ch.
Proof.
  intros Hf He. destruct f as [u r e er fa].
  destruct u as [|c u].
  - destruct e.
    + unfold fpeek, fgetc. simpl. unfold ungetc. simpl.
      repeat split; reflexivity.
    + destruct r as [|c r].
      * unfold fpeek, fgetc. simpl. destruct fa; simpl.
        -- unfold ungetc. simpl. repeat split; try reflexivity.
           intros n. destruct n; reflexivity.
        -- unfold ungetc. simpl. repeat split; try reflexivity.
           intros n. destruct n; reflexivity.
      * simpl in Hf. inversion Hf as [|? ? Hc Hr]. subst.
        unfold fpeek, fgetc. simpl. unfold ungetc. not_eof Hc.
        simpl. repeat split; try reflexivity.
        intros n. rewrite !fread_readable; [reflexivity | exact Hf | exact Hf].
  - destruct e; [discriminate (He eq_refl)|].
    simpl in Hf. inversion Hf as [|? ? Hc Hr]. subst.
    unfold fpeek, fgetc. simpl. unfold ungetc. not_eof Hc.
    simpl. repeat split; try reflexivity.
Qed.

Lemma fpeek_spec_witness :
  Forall is_byte (ungot (open_file (str "ab") false) ++ rest (open_file (str "ab") false))
  /\ (eof (open_file (str "ab") false) = true -> ungot (open_file (str "ab") false) = [])
  /\ fst (fpeek (open_file (str "ab") false)) = 97.
Proof.
  assert (H : Forall is_byte (ungot (open_file (str "ab") false) ++ rest (open_file (str "ab") false)))
    by (repeat constructor; unfold is_byte; lia).
  assert (He : eof (open_file (str "ab") false) = true -> ungot (open_file (str "ab") false) = [])
    by (intros; reflexivity).
  split; [exact H|]. split; [exact He|].
  pose proof (fpeek_spec (open_file (str "ab") false) H He) as P.
  destruct (fpeek (open_file (str "ab") false)) as [ch f'].
  destruct P as (E & _). simpl. rewrite E. reflexivity.
Defined.

(** ** Elementary effects of the stream and device operations *)

Lemma write_attempt_spec bs t :
  let (ok, t') := write_attempt bs t in
  trace t' = trace t ++ [Wr ok bs] /\ terr t' = terr t || negb ok /\ tin t' = tin t
  /\ (wok t = [] -> ok = true /\ wok t' = []).
Proof.
  unfold write_attempt. destruct (wok t) as [|b w]; simpl.
  - rewrite orb_false_r. repeat split; reflexivity.
  - repeat split; try reflexivity; discriminate.
Qed.

Lemma fgetc_bytes f :
  bytes_file f -> let (c, f') := fgetc f in bytes_file f' /\ (c = EOF \/ is_byte c).
Proof.
  unfold bytes_file. destruct f as [u r e er fa]. unfold fgetc. cbn [ungot rest eof fail_at_end app].
  intros H. destruct u as [|c u].
  - destruct e; [split; auto|].
    destruct r as [|c r]; [destruct fa; split; auto|].
    inversion H. subst. split; auto.
  - inversion H. subst. split; auto.
Qed.

Lemma ungetc_bytes c f :
  bytes_file f -> (c = EOF \/ is_byte c) -> bytes_file (snd (ungetc c f)).
Proof.
  unfold bytes_file, ungetc. intros H [Hc | Hc].
  - subst. simpl. exact H.
  - destruct (c =? EOF); simpl; [exact H | constructor; assumption].
Qed.

Lemma fpeek_bytes f : bytes_file f -> bytes_file (snd (fpeek f)).
Proof.
  intros H. unfold fpeek. pose proof (fgetc_bytes f H) as G.
  destruct (fgetc f) as [c f1]. destruct G as [G1 G2].
  pose proof (ungetc_bytes c f1 G1 G2) as U. destruct (ungetc c f1). exact U.
Qed.

Lemma fread_bytes n f :
  bytes_file f -> Forall is_byte (fst (fread n f)) /\ bytes_file (snd (fread n f)).
Proof.
  revert f. induction n as [|n IH]; intros f H; [split; [constructor | exact H]|].
  cbn [fread]. pose proof (fgetc_bytes f H) as G.
  destruct (fgetc f) as [c f1]. destruct G as [G1 G2].
  destruct (c =? EOF) eqn:Ec; [split; [constructor | exact G1]|].
  destruct G2 as [G2 | G2]; [subst; discriminate|].
  specialize (IH f1 G1). destruct (fread n f1) as [cs f2]. simpl in *.
  destruct IH. split; [constructor|]; assumption.
Qed.

Lemma Forall_removelast (P : Z -> Prop) l : Forall P l -> Forall P (removelast l).
Proof.
  induction 1 as [|x l Hx Hl IH]; [constructor|].
  destruct l; simpl; [constructor | constructor; assumption].
Qed.

Lemma b64_loop_payload c :
  Forall is_byte c -> c <> [] -> is_payload (b64_loop c) = true.
Proof.
  intros Hc Hne. unfold is_payload. apply andb_true_intro. split.
  - rewrite b64_loop_length. destruct c as [|x c]; [congruence|].
    apply Nat.ltb_lt. simpl length.
    assert (1 <= (S (length c) + 2) / 3)%nat.
    { apply Nat.div_le_lower_bound; lia. }
    lia.
  - destruct (b64_loop_shape c Hc) as (body & E & F). rewrite E.
    apply forallb_forall. intros x Hx. apply in_app_or in Hx. destruct Hx as [Hx | Hx].
    + rewrite Forall_forall in F. specialize (F x Hx).
      unfold b64_table in F. simpl in F.
      repeat destruct F as [F | F]; try (subst; reflexivity); contradiction.
    + apply repeat_spec in Hx. subst. reflexivity.
Qed.

Lemma base64_encode_success c dstlen :
  base64_encode c dstlen = None \/
  exists buf len, base64_encode c dstlen = Some (buf, len)
    /\ firstn (Z.to_nat len) buf = b64_loop c /\ len = Z.of_nat (length (b64_loop c)).
Proof.
  unfold base64_encode. destruct (dstlen >=? _); [right | left; reflexivity].
  eexists _, _. split; [reflexivity|]. split; [|reflexivity].
  rewrite Nat2Z.id, firstn_app, firstn_all, Nat.sub_diag. apply app_nil_r.
Qed.

Lemma tty_ext_refl t : tty_ext t t [].
Proof. unfold tty_ext. rewrite app_nil_r, orb_false_r. auto. Qed.

Lemma tty_ext_trans t1 t2 t3 m1 m2 :
  tty_ext t1 t2 m1 -> tty_ext t2 t3 m2 -> tty_ext t1 t3 (m1 ++ m2).
Proof.
  unfold tty_ext. intros (A1 & B1 & C1) (A2 & B2 & C2). split; [|split].
  - rewrite A2, A1, app_assoc. reflexivity.
  - rewrite B2, B1, existsb_app, orb_assoc. reflexivity.
  - congruence.
Qed.

Lemma write_attempt_ext bs t :
  tty_ext t (snd (write_attempt bs t)) [Wr (fst (write_attempt bs t)) bs].
Proof.
  pose proof (write_attempt_spec bs t) as W. destruct (write_attempt bs t) as [ok t'].
  destruct W as (A & B & C & _). unfold tty_ext. simpl. rewrite A, B, C.
  destruct ok; simpl; auto.
Qed.

Lemma fread_length n f : (length (fst (fread n f)) <= n)%nat.
Proof.
  revert f. induction n as [|n IH]; intros f; [simpl; lia|].
  cbn [fread]. destruct (fgetc f) as [c f1]. destruct (c =? EOF); [simpl; lia|].
  specialize (IH f1). destruct (fread n f1) as [cs f2]. simpl in *. lia.
Qed.

Lemma removelast_length_le (l : list Z) : (length (removelast l) <= length l)%nat.
Proof.
  induction l as [|x l IH]; [simpl; lia|]. destruct l; simpl in *; lia.
Qed.

Lemma write_attempt_quiet bs t :
  wok t = [] -> fst (write_attempt bs t) = true /\ wok (snd (write_attempt bs t)) = [].
Proof.
  pose proof (write_attempt_spec bs t) as W. destruct (write_attempt bs t) as [ok t'].
  destruct W as (_ & _ & _ & W). exact W.
Qed.

Ltac do_writes H :=
  repeat match type of H with
  | context [write_attempt ?bs ?t] =>
      lazymatch t with context [write_attempt _ _] => fail | _ => idtac end;
      let W := fresh "W" in let ok := fresh "ok" in let t' := fresh "t" in
      pose proof (write_attempt_ext bs t) as W;
      let Q := fresh "Q" in
      pose proof (write_attempt_quiet bs t) as Q;
      destruct (write_attempt bs t) as [ok t'];
      cbn [fst snd] in W, Q; cbn beta iota zeta in H; cbn [fst snd] in H
  end.

Lemma tty_ext_cons t1 t2 t3 e l :
  tty_ext t1 t2 [e] -> tty_ext t2 t3 l -> tty_ext t1 t3 (e :: l).
Proof. intros A B. exact (tty_ext_trans _ _ _ [e] l A B). Qed.

Lemma b64_loop_nonempty c : c <> [] -> (0 < length (b64_loop c))%nat.
Proof.
  intros Hc. rewrite b64_loop_length. destruct c as [|x c]; [congruence|].
  simpl length. assert (1 <= (S (length c) + 2) / 3)%nat by (apply Nat.div_le_lower_bound; lia).
  lia.
Qed.

Ltac chain_ext :=
  repeat match goal with
  | |- tty_ext _ _ [] => apply tty_ext_refl
  | |- tty_ext _ _ [_] => eassumption
  | |- tty_ext _ _ (_ :: _) => eapply tty_ext_cons; [eassumption|]
  end.

Ltac ok_of bs :=
  match goal with
  | W : tty_ext _ _ [Wr ?k bs] |- _ => constr:(k)
  | _ => constr:(true)
  end.

Ltac emit_chunk H o c :=
  let En := fresh "En" in let buf := fresh "buf" in let len := fresh "len" in
  let Ebuf := fresh "Ebuf" in let Elen := fresh "Elen" in
  destruct (base64_encode_success c (enc_buf_size o)) as [En | (buf & len & En & Ebuf & Elen)];
  rewrite En in H;
  [ repeat match type of H with context [if ?b then _ else _] => destruct b end;
    unfold fputs in H; do_writes H; discriminate
  | subst len;
    match goal with |- context [write_header ?st] =>
      destruct (is_screen o) eqn:?; destruct (write_header st) eqn:? end;
    unfold fputs, fwrite in H; do_writes H; rewrite Ebuf in *;
    match goal with W : tty_ext _ _ [Wr ?ok3 (b64_loop c)] |- _ => destruct ok3 end;
    cbn beta iota zeta in H;
    match type of H with
    | context [Z.of_nat ?n =? Z.of_nat ?n] => rewrite Z.eqb_refl in H; cbn [negb] in H
    | context [0 =? Z.of_nat (length (b64_loop c))] =>
      replace (0 =? Z.of_nat (length (b64_loop c))) with false in H
        by (symmetry; apply Z.eqb_neq; pose proof (b64_loop_nonempty c ltac:(assumption)); lia);
      cbn [negb] in H
    end;
    right;
    match type of H with
    | copy_loop _ _ ?S = _ => exists c, S
    | Some ?S = Some _ => exists c, S
    end;
    let k1 := ok_of (@cons Z ESC [80]) in let k2 := ok_of (seq_start o) in
    let k3 := ok_of (b64_loop c) in let k4 := ok_of (@cons Z ESC [92]) in
    exists k1, k2, k3, k4;
    (split; [assumption|]);
    (split; [assumption|]);
    (split; [intros Hb; split; [tauto | simpl; tauto]|]);
    (split; [unfold iteration_events;
             match goal with E : is_screen o = _ |- _ => rewrite E end;
             cbn [app andb]; simpl dev; chain_ext|]);
    (split; [intros Hq; cbn [dev];
             repeat match goal with
                    | Q : wok ?a = [] -> _ /\ _, Hq' : wok ?a = [] |- _ =>
                        let Qa := fresh "Qa" in let Qb := fresh "Qb" in
                        destruct (Q Hq') as [Qa Qb]; clear Q
                    end;
             repeat match goal with E : ?k = true |- _ => is_var k; subst k end;
             (split; [reflexivity | assumption]) || (exfalso; congruence)|]);
    (split; [reflexivity|]);
    (try (split; [exact H | reflexivity]));
    (try (split; [injection H; auto | reflexivity]))
  ].

Lemma copy_step o fuel st st' :
  copy_loop (S fuel) o st = Some st' ->
  (dev st' = dev st /\ rc st' = rc st /\ (bytes_file (input st) -> bytes_file (input st')))
  \/ exists chunk st1 ok1 ok2 ok3 ok4,
       chunk <> []
       /\ (length chunk <= read_buf_size o)%nat
       /\ (bytes_file (input st) -> Forall is_byte chunk /\ bytes_file (input st1))
       /\ tty_ext (dev st) (dev st1)
            (iteration_events o (write_header st) ok1 ok2 ok3 ok4 (b64_loop chunk))
       /\ (wok (dev st) = [] -> ok1 && ok2 && ok3 && ok4 = true /\ wok (dev st1) = [])
       /\ write_header st1 = false
       /\ (if ok3 then copy_loop fuel o st1 = Some st' /\ rc st1 = rc st
           else st' = st1 /\ rc st1 = ERR_IO).
Proof.
  intros H. cbn [copy_loop] in H.
  pose proof (fread_bytes (read_buf_size o) (input st)) as Fb.
  pose proof (fread_length (read_buf_size o) (input st)) as Fl.
  destruct (fread (read_buf_size o) (input st)) as [chunk in1] eqn:Ef.
  cbn [fst snd] in Fb, Fl.
  destruct chunk as [|x xs].
  { left. injection H as <-. simpl. split; [reflexivity | split; [reflexivity|]].
    intros Hb. apply (Fb Hb). }
  destruct (trim_newline o) eqn:Et; [destruct (fpeek in1) as [ch in2] eqn:Ep|].
  - assert (Fb2 : bytes_file (input st) -> Forall is_byte (x :: xs) /\ bytes_file in2).
    { intros Hb. destruct (Fb Hb) as [F1 F2]. split; [exact F1|].
      pose proof (fpeek_bytes in1 F2) as P. rewrite Ep in P. exact P. }
    cbn beta iota zeta in H.
    destruct ((ch =? EOF) && (last_byte (x :: xs) =? 10)) eqn:Etr; cbn [andb] in H.
    + destruct (length (removelast (x :: xs)) =? 0)%nat eqn:El.
      * left. injection H as <-. simpl. split; [reflexivity | split; [reflexivity|]].
        intros Hb. apply (Fb2 Hb).
      * assert (Hne : removelast (x :: xs) <> []).
        { intros E. rewrite E in El. discriminate. }
        assert (Fb3 : bytes_file (input st) -> Forall is_byte (removelast (x :: xs)) /\ bytes_file in2).
        { intros Hb. destruct (Fb2 Hb). split; [apply Forall_removelast|]; assumption. }
        assert (Hlen : (length (removelast (x :: xs)) <= read_buf_size o)%nat)
          by (pose proof (removelast_length_le (x :: xs)); lia).
        clear Fb Fb2.
        emit_chunk H o (removelast (x :: xs)).
    + assert (Hne : x :: xs <> []) by (intros E; discriminate E).
      emit_chunk H o (x :: xs).
  - assert (Hne : x :: xs <> []) by (intros E; discriminate E).
    cbn beta iota zeta in H. cbn [andb] in H.
    emit_chunk H o (x :: xs).
Qed.

(** ** Classification of the device writes of the copy loop *)

Lemma list_Z_eqb_refl l : list_Z_eqb l l = true.
Proof. unfold list_Z_eqb. destruct (list_eq_dec Z.eq_dec l l); congruence. Qed.

Lemma list_Z_eqb_true l m : list_Z_eqb l m = true -> l = m.
Proof. unfold list_Z_eqb. destruct (list_eq_dec Z.eq_dec l m); congruence. Qed.

Lemma seq_start_not_payload o : is_payload (seq_start o) = false.
Proof. unfold seq_start. destruct (is_tmux o), (primary o); reflexivity. Qed.

Lemma seq_end_not_payload o : is_payload (seq_end o) = false.
Proof. unfold seq_end. destruct (is_tmux o); reflexivity. Qed.

Lemma payload_not_eqb bs m : is_payload bs = true -> is_payload m = false -> list_Z_eqb bs m = false.
Proof.
  intros A B. destruct (list_Z_eqb bs m) eqn:E; [|reflexivity].
  apply list_Z_eqb_true in E. subst. congruence.
Qed.

Lemma ev_facts o b :
  is_header_ev o (Wr b [ESC; 80]) = false /\ is_header_ev o (Wr b [ESC; 92]) = false
  /\ is_footer_ev o (Wr b [ESC; 80]) = false /\ is_footer_ev o (Wr b [ESC; 92]) = false
  /\ is_payload_ev (Wr b [ESC; 80]) = false /\ is_payload_ev (Wr b [ESC; 92]) = false
  /\ is_header_ev o (Wr b (seq_start o)) = true /\ is_payload_ev (Wr b (seq_start o)) = false
  /\ is_footer_ev o (Wr b (seq_start o)) = false.
Proof.
  unfold is_header_ev, is_footer_ev, is_payload_ev, seq_start, seq_end.
  destruct (is_tmux o), (primary o); vm_compute; repeat split; reflexivity.
Qed.

Lemma payload_ev_facts o b enc :
  is_payload enc = true ->
  is_header_ev o (Wr b enc) = false /\ is_footer_ev o (Wr b enc) = false
  /\ is_payload_ev (Wr b enc) = true.
Proof.
  intros P. unfold is_header_ev, is_footer_ev, is_payload_ev.
  rewrite !payload_not_eqb; auto using seq_start_not_payload, seq_end_not_payload.
Qed.


Lemma iteration_props o wh ok1 ok2 ok3 ok4 enc L seen :
  is_payload enc = true -> wh = negb seen ->
  let E := iteration_events o wh ok1 ok2 ok3 ok4 enc in
  header_first o seen (E ++ L) = header_first o true L
  /\ payload_failure_last (E ++ L)
     = (if ok3 then payload_failure_last L else match L with [] => true | _ => false end)
  /\ existsb payload_failed E = negb ok3
  /\ forallb (fun e => negb (is_footer_ev o e)) E = true
  /\ forallb is_wr E = true.
Proof.
  intros P Hw E. subst E.
  destruct (ev_facts o ok1) as (A1 & _ & A3 & _ & A5 & _).
  destruct (ev_facts o ok4) as (_ & B2 & _ & B4 & _ & B6 & _).
  destruct (ev_facts o ok2) as (_ & _ & _ & _ & _ & _ & C7 & C8 & C9).
  destruct (payload_ev_facts o ok3 enc P) as (D1 & D2 & D3).
  unfold iteration_events, payload_failed.
  destruct (is_screen o), wh, ok3, seen; try discriminate; cbn [app andb];
    cbn [header_first payload_failure_last existsb forallb];
    rewrite ?A1, ?A3, ?A5, ?B2, ?B4, ?B6, ?C7, ?C8, ?C9, ?D1, ?D2, ?D3;
    cbn [negb andb orb is_failed is_wr]; repeat split; try reflexivity.
  all: destruct L; reflexivity.
Qed.

Lemma iteration_events_wr o wh ok1 ok2 ok3 ok4 enc :
  forallb is_wr (iteration_events o wh ok1 ok2 ok3 ok4 enc) = true.
Proof. unfold iteration_events. destruct (is_screen o), wh, ok3; reflexivity. Qed.

(** The copy loop only writes to the device. *)
Lemma copy_loop_ext o fuel st st' :
  copy_loop fuel o st = Some st' ->
  exists L, tty_ext (dev st) (dev st') L /\ forallb is_wr L = true.
Proof.
  revert st. induction fuel as [|fuel IH]; intros st H.
  - injection H as <-. exists []. split; [apply tty_ext_refl | reflexivity].
  - destruct (copy_step o fuel st st' H) as [(Ed & _ & _) | (c & st1 & ok1 & ok2 & ok3 & ok4 & _ & _ & _ & X & _ & _ & K)].
    + exists []. rewrite Ed. split; [apply tty_ext_refl | reflexivity].
    + destruct ok3.
      * destruct K as [K _]. destruct (IH st1 K) as (L & X' & W').
        eexists. split; [exact (tty_ext_trans _ _ _ _ _ X X')|].
        rewrite forallb_app, iteration_events_wr. exact W'.
      * destruct K as [-> _]. eexists. split; [exact X | apply iteration_events_wr].
Qed.

(** The framing properties of the copy loop. *)
Lemma copy_loop_props o fuel st st' :
  bytes_file (input st) -> copy_loop fuel o st = Some st' ->
  exists L, tty_ext (dev st) (dev st') L
    /\ forallb is_wr L = true
    /\ forallb (fun e => negb (is_footer_ev o e)) L = true
    /\ header_first o (negb (write_header st)) L = true
    /\ payload_failure_last L = true
    /\ (existsb payload_failed L = true -> rc st' = ERR_IO).
Proof.
  revert st. induction fuel as [|fuel IH]; intros st Hb H.
  - injection H as <-. exists []. split; [apply tty_ext_refl|]. repeat split; discriminate.
  - destruct (copy_step o fuel st st' H)
      as [(Ed & _ & _) | (c & st1 & ok1 & ok2 & ok3 & ok4 & Hne & _ & Hbytes & X & _ & Wh & K)].
    + exists []. rewrite Ed. split; [apply tty_ext_refl|]. repeat split; discriminate.
    + destruct (Hbytes Hb) as [Bc Bst1].
      pose proof (b64_loop_payload c Bc Hne) as P.
      destruct ok3.
      * destruct K as [K _]. destruct (IH st1 Bst1 K) as (L & X' & W' & F' & Hf' & Pf' & R').
        destruct (iteration_props o (write_header st) ok1 ok2 true ok4 (b64_loop c) L
                    (negb (write_header st)) P (eq_sym (negb_involutive _)))
          as (I1 & I2 & I3 & I4 & I5).
        eexists. split; [exact (tty_ext_trans _ _ _ _ _ X X')|].
        rewrite !forallb_app, I4, I5, I1, I2, existsb_app, I3, W', F'.
        rewrite Wh in Hf'. split; [reflexivity|]. split; [reflexivity|].
        split; [exact Hf'|]. split; [exact Pf'|]. exact R'.
      * destruct K as [-> Rc].
        destruct (iteration_props o (write_header st) ok1 ok2 false ok4 (b64_loop c) []
                    (negb (write_header st)) P (eq_sym (negb_involutive _)))
          as (I1 & I2 & I3 & I4 & I5).
        rewrite app_nil_r in I1, I2.
        eexists. split; [exact X|]. split; [exact I5|]. split; [exact I4|].
        split; [rewrite I1; reflexivity|]. split; [exact I2|]. intros _. exact Rc.
Qed.

(** ** The copy loop terminates within its fuel *)

Lemma fgetc_held f :
  let (c, f') := fgetc f in (held f' = held f /\ c = EOF) \/ (held f' + 1 = held f)%nat.
Proof.
  unfold fgetc, held. destruct f as [[|c u] r e er fa]; cbn [ungot rest eof fail_at_end].
  - destruct e; [left; auto|]. destruct r as [|c r]; [destruct fa; left; auto|].
    right. simpl. lia.
  - right. simpl. lia.
Qed.

Lemma fread_held n f : (held (snd (fread n f)) + length (fst (fread n f)) <= held f)%nat.
Proof.
  revert f. induction n as [|n IH]; intros f; [simpl; lia|].
  cbn [fread]. pose proof (fgetc_held f) as G. destruct (fgetc f) as [c f1].
  destruct (c =? EOF) eqn:Ec.
  - simpl. destruct G as [[G _] | G]; lia.
  - specialize (IH f1). destruct (fread n f1) as [cs f2]. simpl in *.
    destruct G as [[_ G] | G]; [subst; discriminate|]. lia.
Qed.

Lemma fpeek_held f : (held (snd (fpeek f)) <= held f)%nat.
Proof.
  unfold fpeek. pose proof (fgetc_held f) as G. destruct (fgetc f) as [c f1].
  unfold ungetc. destruct (c =? EOF) eqn:Ec; simpl.
  - destruct G as [[G _] | G]; lia.
  - destruct G as [[_ G] | G]; [subst; discriminate|]. unfold held in *. simpl. lia.
Qed.

(** Every iteration that does not leave the loop consumes a byte, so any two
    fuels above [held] of the input give the same run. *)
Lemma loop_fuel_enough o fuel1 fuel2 st :
  (held (input st) < fuel1)%nat -> (held (input st) < fuel2)%nat ->
  copy_loop fuel1 o st = copy_loop fuel2 o st.
Proof.
  revert fuel2 st. induction fuel1 as [|fuel1 IH]; intros fuel2 st H1 H2; [lia|].
  destruct fuel2 as [|fuel2]; [lia|].
  cbn [copy_loop]. pose proof (fread_held (read_buf_size o) (input st)) as R.
  destruct (fread (read_buf_size o) (input st)) as [chunk in1]. cbn [fst snd] in R.
  destruct chunk as [|x xs]; [reflexivity|]. cbn [length] in R.
  destruct (trim_newline o).
  - pose proof (fpeek_held in1) as P. destruct (fpeek in1) as [ch in2]. cbn [snd] in P.
    destruct (_ && _); [reflexivity|].
    destruct (write_header st), (base64_encode _ _) as [[buf len]|]; try reflexivity;
      destruct (fwrite _ _) as [n t3]; destruct (negb _); try reflexivity;
      apply IH; simpl; lia.
  - cbn [andb].
    destruct (write_header st), (base64_encode _ _) as [[buf len]|]; try reflexivity;
      destruct (fwrite _ _) as [n t3]; destruct (negb _); try reflexivity;
      apply IH; simpl; lia.
Qed.

(** ** The copy branch *)

Lemma fputs_ext bs t :
  exists ok, tty_ext t (snd (fputs bs t)) [Wr ok bs] /\ (fst (fputs bs t) = if ok then 0 else -1).
Proof.
  unfold fputs. pose proof (write_attempt_ext bs t) as W. destruct (write_attempt bs t) as [ok t'].
  exists ok. split; [exact W | reflexivity].
Qed.

Lemma transfer_ext o f t r t' w :
  transfer o f t = Some (r, t', w) -> exists L, tty_ext t t' L /\ forallb is_wr L = true.
Proof.
  unfold transfer. destruct (copy_loop _ _ _) as [st|] eqn:E; [|discriminate].
  intros H. injection H as _ <- _.
  destruct (copy_loop_ext _ _ _ _ E) as (L & X & W). cbn [dev] in X.
  destruct (fputs_ext (seq_end o) (dev st)) as (ok & F & _).
  exists (L ++ [Wr ok (seq_end o)]). split; [exact (tty_ext_trans _ _ _ _ _ X F)|].
  rewrite forallb_app, W. reflexivity.
Qed.

Lemma transfer_props o f t r t' w :
  bytes_file f -> transfer o f t = Some (r, t', w) ->
  exists L ok, tty_ext t t' (L ++ [Wr ok (seq_end o)])
    /\ forallb is_wr L = true
    /\ forallb (fun ev => negb (is_footer_ev o ev)) L = true
    /\ header_first o false L = true
    /\ payload_failure_last L = true.
Proof.
  intros Hb. unfold transfer. destruct (copy_loop _ _ _) as [st|] eqn:E; [|discriminate].
  intros H. injection H as _ <- _.
  destruct (copy_loop_props _ _ (mkl f t true 0 EXIT_SUCCESS) _ Hb E) as (L & X & W & F & Hf & P & _). cbn [dev write_header] in *.
  destruct (fputs_ext (seq_end o) (dev st)) as (ok & Fo & _).
  exists L, ok. split; [exact (tty_ext_trans _ _ _ _ _ X Fo)|]. auto.
Qed.

Lemma join_args_bytes buf args b :
  Forall is_byte buf -> Forall (Forall is_byte) args -> join_args buf args = Some b ->
  Forall is_byte b.
Proof.
  revert buf. induction args as [|a more IH]; intros buf Hbuf Ha H.
  - injection H as <-. exact Hbuf.
  - cbn [join_args] in H. destruct (_ >? _); [discriminate|].
    inversion Ha as [|? ? Ha1 Ha2]; subst. refine (IH _ _ Ha2 H).
    apply Forall_app. split; [|exact Ha1].
    destruct (0 <? length buf)%nat; [apply Forall_app; split; [exact Hbuf | constructor; [unfold is_byte; lia | constructor]]|exact Hbuf].
Qed.

Lemma bytes_of_check l :
  forallb (fun x => (0 <=? x) && (x <? 256)) l = true -> Forall is_byte l.
Proof.
  intros H. apply Forall_forall. intros x Hx. rewrite forallb_forall in H.
  specialize (H x Hx). apply andb_prop in H. destruct H as [H1 H2].
  apply Z.leb_le in H1. apply Z.ltb_lt in H2. unfold is_byte. lia.
Qed.

Lemma log_ext_trace t ev : trace (log t ev) = trace t ++ [ev].
Proof. reflexivity. Qed.

Lemma enter_trace e :
  trace (if isatty e then log (log (dev0 e) ModeSave) ModeSet else dev0 e)
  = trace (dev0 e) ++ mode_enter e
  /\ terr (if isatty e then log (log (dev0 e) ModeSave) ModeSet else dev0 e) = terr (dev0 e)
  /\ tin (if isatty e then log (log (dev0 e) ModeSave) ModeSet else dev0 e) = tin (dev0 e).
Proof.
  unfold mode_enter. destruct (isatty e); simpl; [rewrite <- app_assoc|rewrite app_nil_r]; auto.
Qed.

Lemma leave_trace e t :
  trace (if isatty e then log t ModeRestore else t) = trace t ++ mode_leave e.
Proof. unfold mode_leave. destruct (isatty e); simpl; [reflexivity | rewrite app_nil_r; reflexivity]. Qed.

(** The input of the copy branch: [stdin] or the joined arguments. *)
Lemma write_input_bytes e f :
  bytes_file (stdin e) -> Forall (Forall is_byte) (args e) ->
  match args e with
  | [] => Some (stdin e)
  | _ => match join_args [] (args e) with Some buf => Some (open_file buf false) | None => None end
  end = Some f -> bytes_file f.
Proof.
  intros Hs Ha. destruct (args e) as [|a more] eqn:Ea.
  - intros H. injection H as <-. exact Hs.
  - destruct (join_args [] (a :: more)) as [b|] eqn:J; [|discriminate].
    intros H. injection H as <-. unfold bytes_file, open_file. cbn [ungot rest app].
    exact (join_args_bytes [] (a :: more) b (Forall_nil _) Ha J).
Qed.

(** C3 (code bug): the copy loop does not keep the framing.  On empty
    input no header is written and the device receives the footer alone.
    When the first write of the loop fails (the header, or [ESC P] under
    screen), the loop goes on: the payload, [ESC \] and the footer are
    written after it; only the device error indicator makes the exit code
    [ERR_IO]. *)
Lemma framing_slips :
  let so := mkopts OP_WRITE true false false false in
  main write_opts (stdin_env [])
  = Some (EXIT_SUCCESS, mktty [Wr true (seq_end write_opts)] false [] (open_file [] false))
  /\ main write_opts (mkenv false [] (open_file (str "hi") false) fail_first_tty)
     = Some (ERR_IO, mktty [Wr false (seq_start write_opts); Wr true (str "aGk=");
                            Wr true (seq_end write_opts)] true [] (open_file [] false))
  /\ main so (mkenv false [] (open_file (str "hi") false) fail_first_tty)
     = Some (ERR_IO, mktty [Wr false [ESC; 80]; Wr true (seq_start so); Wr true (str "aGk=");
                            Wr true [ESC; 92]; Wr true (seq_end so)] true [] (open_file [] false)).
Proof. cbv zeta. split; [|split]; vm_compute; reflexivity. Qed.

(** The writes of the copy operation to the device, between the termios
    calls, are the loop's writes [L] followed by exactly one attempt at the
    footer.  In [L]: no footer; the header at most once and before every
    payload write; a failed payload write is the last write of the loop.
    Any failed write, in the loop or the footer, makes the exit code
    [ERR_IO]. *)
Theorem main_write_framing o e r t :
  op o = OP_WRITE -> bytes_file (stdin e) -> Forall (Forall is_byte) (args e) ->
  join_args [] (args e) <> None ->
  main o e = Some (r, t) ->
  exists L ok,
    trace t = trace (dev0 e) ++ mode_enter e ++ L ++ [Wr ok (seq_end o)] ++ mode_leave e
    /\ forallb is_wr L = true
    /\ forallb (fun ev => negb (is_footer_ev o ev)) L = true
    /\ header_first o false L = true
    /\ payload_failure_last L = true
    /\ (existsb is_failed (L ++ [Wr ok (seq_end o)]) = true -> r = ERR_IO).
Proof.
  intros Hop Hs Ha Hj H. unfold main in H. rewrite Hop in H.
  destruct (enter_trace e) as (T1 & E1 & I1).
  set (t1 := if isatty e then log (log (dev0 e) ModeSave) ModeSet else dev0 e) in *.
  destruct (match args e with
            | [] => Some (stdin e)
            | _ => match join_args [] (args e) with
                   | Some buf => Some (open_file buf false) | None => None end
            end) as [f|] eqn:Ei.
  - pose proof (write_input_bytes e f Hs Ha Ei) as Hf.
    destruct (transfer o f t1) as [[[r0 t2] w]|] eqn:Et; [|discriminate].
    injection H as <- <-.
    destruct (transfer_props _ _ _ _ _ _ Hf Et) as (L & ok & (X1 & X2 & _) & W & F & Hh & P).
    exists L, ok. split.
    + rewrite leave_trace, X1, T1, <- !app_assoc. reflexivity.
    + repeat (split; [assumption|]). intros Fa.
      unfold ferror_tty. rewrite X2, Fa, orb_true_r. reflexivity.
  - exfalso. destruct (args e) as [|a m] eqn:Ea; [discriminate Ei|].
    destruct (join_args [] (a :: m)); [discriminate Ei|]. apply Hj. reflexivity.
Qed.

Lemma main_write_framing_witness :
  exists r t, main write_opts (mkenv false [] (open_file (str "hi") false) quiet_tty) = Some (r, t)
    /\ exists L ok, trace t = [] ++ [] ++ L ++ [Wr ok (seq_end write_opts)] ++ []
    /\ header_first write_opts false L = true.
Proof.
  destruct (main write_opts (mkenv false [] (open_file (str "hi") false) quiet_tty))
    as [[r t]|] eqn:Hm; [|vm_compute in Hm; discriminate Hm].
  exists r, t. split; [reflexivity|].
  destruct (main_write_framing write_opts (mkenv false [] (open_file (str "hi") false) quiet_tty) r t)
    as (L & ok & T & _ & _ & Hh & _).
  - reflexivity.
  - apply bytes_of_check. vm_compute. reflexivity.
  - constructor.
  - discriminate.
  - exact Hm.
  - exists L, ok. split; assumption.
Defined.

(** ** Termios calls *)

Lemma wr_ext_refl t : wr_ext t t.
Proof. exists []. rewrite app_nil_r. auto. Qed.

Lemma wr_ext_trans t1 t2 t3 : wr_ext t1 t2 -> wr_ext t2 t3 -> wr_ext t1 t3.
Proof.
  intros (m1 & A1 & B1) (m2 & A2 & B2). exists (m1 ++ m2).
  rewrite A2, A1, <- app_assoc, forallb_app, B1, B2. auto.
Qed.

Lemma tty_ext_wr t t' L : tty_ext t t' L -> forallb is_wr L = true -> wr_ext t t'.
Proof. intros (A & _ & _) B. exists L. auto. Qed.

Lemma fputs_wr bs t : wr_ext t (snd (fputs bs t)).
Proof.
  destruct (fputs_ext bs t) as (ok & X & _). exact (tty_ext_wr _ _ _ X eq_refl).
Qed.

Lemma read_reply_trace n t : trace (snd (read_reply n t)) = trace t.
Proof.
  revert t. induction n as [|n IH]; intros t; [reflexivity|].
  cbn [read_reply]. unfold tty_fgetc. destruct (fgetc (tin t)) as [c f].
  destruct (c <? 0); [reflexivity|]. destruct (c =? 82); [reflexivity|].
  specialize (IH (mktty (trace t) (terr t) (wok t) f)).
  destruct (read_reply n _) as [[l|] t2]; exact IH.
Qed.

Lemma get_cursor_column_wr t : wr_ext t (snd (get_cursor_column t)).
Proof.
  unfold get_cursor_column. pose proof (fputs_wr ([ESC] ++ str "[6n") t) as F.
  destruct (fputs _ t) as [r t1]. cbn [snd] in F.
  destruct (r <? 0); [exact F|].
  pose proof (read_reply_trace 15 t1) as R. destruct (read_reply 15 t1) as [[buf|] t2].
  - cbn [snd] in R. assert (wr_ext t1 t2) as X by (exists []; rewrite app_nil_r; auto).
    destruct (sscanf_cpr (cstr buf)) as [[x col]|]; exact (wr_ext_trans _ _ _ F X).
  - cbn [snd] in R. apply (wr_ext_trans _ _ _ F). exists []. rewrite app_nil_r. auto.
Qed.

Lemma probe_wr o t : wr_ext t (snd (probe o t)).
Proof.
  unfold probe.
  pose proof (fputs_wr [ESC; 55] t) as F0. set (t0 := snd (fputs [ESC; 55] t)) in *.
  pose proof (get_cursor_column_wr t0) as G1. destruct (get_cursor_column t0) as [col t1].
  pose proof (fputs_wr (seq_start o ++ seq_end o) t1) as F2.
  set (t2 := snd (fputs (seq_start o ++ seq_end o) t1)) in *.
  pose proof (get_cursor_column_wr t2) as G2. destruct (get_cursor_column t2) as [col2 t3].
  cbn [snd] in G1, G2.
  assert (wr_ext t t3) as X.
  { eapply wr_ext_trans; [exact F0|]. eapply wr_ext_trans; [exact G1|].
    eapply wr_ext_trans; [exact F2|]. exact G2. }
  destruct (_ || _); [exact (wr_ext_trans _ _ _ X (fputs_wr _ _)) | exact X].
Qed.

Lemma copy_loop_fits o c :
  (length c <= read_buf_size o)%nat -> base64_encode c (enc_buf_size o) <> None.
Proof.
  intros Hc. unfold base64_encode, enc_buf_size.
  assert (Z.of_nat (read_buf_size o) <= 6144)
    by (apply Z.leb_le; unfold read_buf_size; destruct (is_screen o); vm_compute; reflexivity).
  rewrite !encoded_size_no_wrap by lia.
  assert ((Z.of_nat (length c) + 2) / 3 <= (Z.of_nat (read_buf_size o) + 2) / 3)
    by (apply Z.div_le_mono; lia).
  destruct (Z.geb_spec ((Z.of_nat (read_buf_size o) + 2) / 3 * 4 + 1)
              ((Z.of_nat (length c) + 2) / 3 * 4 + 1)); [discriminate | lia].
Qed.

(** The assertion in [base64_encode] always holds in the copy loop. *)
Lemma copy_loop_no_abort o fuel st : copy_loop fuel o st <> None.
Proof.
  revert st. induction fuel as [|fuel IH]; intros st; [discriminate|].
  cbn [copy_loop]. pose proof (fread_length (read_buf_size o) (input st)) as R.
  destruct (fread (read_buf_size o) (input st)) as [chunk in1]. cbn [fst] in R.
  destruct chunk as [|x xs]; [discriminate|].
  destruct (trim_newline o).
  - destruct (fpeek in1) as [ch in2].
    destruct ((ch =? EOF) && (last_byte (x :: xs) =? 10)) eqn:Et.
    + cbn [andb]. destruct (length (removelast (x :: xs)) =? 0)%nat; [discriminate|].
      pose proof (copy_loop_fits o (removelast (x :: xs))
                    ltac:(pose proof (removelast_length_le (x :: xs)); lia)) as Fi.
      destruct (write_header st), (base64_encode _ _) as [[buf len]|]; try contradiction;
        destruct (fwrite _ _) as [n t3]; destruct (negb _); try discriminate; apply IH.
    + cbn [andb].
      pose proof (copy_loop_fits o (x :: xs) R) as Fi.
      destruct (write_header st), (base64_encode _ _) as [[buf len]|]; try contradiction;
        destruct (fwrite _ _) as [n t3]; destruct (negb _); try discriminate; apply IH.
  - cbn [andb].
    pose proof (copy_loop_fits o (x :: xs) R) as Fi.
    destruct (write_header st), (base64_encode _ _) as [[buf len]|]; try contradiction;
      destruct (fwrite _ _) as [n t3]; destruct (negb _); try discriminate; apply IH.
Qed.

Lemma transfer_no_abort o f t : transfer o f t <> None.
Proof.
  unfold transfer. pose proof (copy_loop_no_abort o (S (length (ungot f ++ rest f)))
                                 (mkl f t true 0 EXIT_SUCCESS)) as N.
  destruct (copy_loop _ _ _); [discriminate | contradiction].
Qed.

(** C7 (counterexample): the clear operation on a terminal also saves the
    mode and disables echo and canonical mode. *)
Lemma clear_changes_mode :
  exists r t, main clear_opts (mkenv true [] (open_file [] false) quiet_tty) = Some (r, t)
    /\ trace t = [ModeSave; ModeSet; Wr true (seq_start clear_opts ++ str "!" ++ seq_end clear_opts);
                  ModeRestore].
Proof. eexists _, _. split; [vm_compute; reflexivity | vm_compute; reflexivity]. Qed.

(** C7 (amended): whatever the operation, [main] never aborts; on a
    terminal it saves the mode and changes it before the operation, and
    restores it as its very last device action on every path (the probe's
    failures, a too long command line, write and read errors); in between
    only writes happen.  Off a terminal no termios call is made. *)
Theorem main_mode_scope o e :
  exists r t mid, main o e = Some (r, t)
    /\ trace t = trace (dev0 e) ++ mode_enter e ++ mid ++ mode_leave e
    /\ forallb is_wr mid = true.
Proof.
  destruct (enter_trace e) as (T1 & _ & _).
  set (t1 := if isatty e then log (log (dev0 e) ModeSave) ModeSet else dev0 e) in *.
  assert (Fin : forall r t, wr_ext t1 t -> exists r' t' mid,
             Some (if ferror_tty t then ERR_IO else r, if isatty e then log t ModeRestore else t)
             = Some (r', t')
             /\ trace t' = trace (dev0 e) ++ mode_enter e ++ mid ++ mode_leave e
             /\ forallb is_wr mid = true).
  { intros r t (mid & A & B). eexists _, _, mid. split; [reflexivity|].
    rewrite leave_trace, A, T1, <- !app_assoc. auto. }
  unfold main. fold t1. destruct (op o).
  - apply Fin. apply fputs_wr.
  - pose proof (probe_wr o t1) as P. destruct (probe o t1) as [r t]. apply Fin. exact P.
  - destruct (match args e with
              | [] => Some (stdin e)
              | _ => match join_args [] (args e) with
                     | Some buf => Some (open_file buf false) | None => None end
              end) as [f|].
    + pose proof (transfer_no_abort o f t1) as N.
      destruct (transfer o f t1) as [[[r t] w]|] eqn:Et; [|contradiction].
      destruct (transfer_ext _ _ _ _ _ _ Et) as (L & X & W).
      apply Fin. exact (tty_ext_wr _ _ _ X W).
    + eexists _, _, []. split; [reflexivity|]. rewrite leave_trace, T1, <- app_assoc. auto.
Qed.

(** C4 (code bug): with trimming, in every configuration, ["hello\n"] and
    ["hello"] both output one frame holding the encoding ["aGVsbG8="] of
    ["hello"] (inside [ESC P] ... [ESC \] under screen), followed by the
    footer; but ["\n"] outputs the footer alone, with no header: trimming
    empties the only chunk, the loop breaks before the header, and the
    footer closes a sequence that was never opened. *)
Theorem trim_newline_examples sc tm pr :
  let o := trim_opts sc tm pr in
  let frame := (if sc then [ESC; 80] else []) ++ seq_start o ++ str "aGVsbG8="
               ++ (if sc then [ESC; 92] else []) ++ seq_end o in
  main_output o (stdin_env (str "hello" ++ [10])) = Some (EXIT_SUCCESS, frame)
  /\ main_output o (stdin_env (str "hello")) = Some (EXIT_SUCCESS, frame)
  /\ main_output o (stdin_env [10]) = Some (EXIT_SUCCESS, seq_end o).
Proof. destruct sc, tm, pr; vm_compute; (split; [reflexivity | split; reflexivity]). Qed.

(** C5 (code bug): a single argument of 74993 bytes, shorter than the
    74994-byte limit the error message reports, is rejected: [main] writes
    nothing and exits with [ERR_GENERAL]; 74992 bytes is the longest single
    argument accepted. *)
Theorem args_limit_off_by_one :
  join_args [] [repeat 97 (Z.to_nat 74993)] = None
  /\ main write_opts (mkenv false [repeat 97 (Z.to_nat 74993)] (open_file [] false) quiet_tty)
     = Some (ERR_GENERAL, quiet_tty)
  /\ option_map (fun b => Z.of_nat (length b)) (join_args [] [repeat 97 (Z.to_nat 74992)]) = Some 74992.
Proof. split; [|split]; vm_compute; reflexivity. Qed.

(** C6 (code bug): a reply that is not a cursor-position report, because
    ['x'] stands where the final ['R'] belongs, still yields a column:
    [sscanf] returns 2 once both numbers are read, before it compares the
    ['R'].  Two such replies make the probe report support. *)
Theorem malformed_reply_column :
  fst (get_cursor_column (reply_tty ([ESC] ++ str "[3;7xR"))) = 7
  /\ option_map fst
       (main test_opts (mkenv true [] (open_file [] false)
                         (reply_tty ([ESC] ++ str "[3;7xR" ++ [ESC] ++ str "[3;7xR"))))
     = Some EXIT_SUCCESS.
Proof. split; vm_compute; reflexivity. Qed.

(** ** Chunking *)

Lemma copy_loop_frames o fuel st st' :
  wok (dev st) = [] -> copy_loop fuel o st = Some st' ->
  wok (dev st') = []
  /\ exists cs, tty_ext (dev st) (dev st') (frames_events o (write_header st) cs)
       /\ Forall (fun c => c <> [] /\ (length c <= read_buf_size o)%nat) cs.
Proof.
  revert st. induction fuel as [|fuel IH]; intros st Hq H.
  - injection H as <-. split; [exact Hq|]. exists []. split; [apply tty_ext_refl | constructor].
  - destruct (copy_step o fuel st st' H)
      as [(Ed & _ & _) | (c & st1 & ok1 & ok2 & ok3 & ok4 & Hne & Hl & _ & X & Q & Wh & K)].
    + rewrite Ed. split; [exact Hq|]. exists []. split; [apply tty_ext_refl | constructor].
    + destruct (Q Hq) as [Ok Hq1].
      apply andb_prop in Ok as [Ok Ok4]. apply andb_prop in Ok as [Ok Ok3].
      apply andb_prop in Ok as [Ok1 Ok2]. subst ok1 ok2 ok3 ok4.
      destruct K as [K _]. destruct (IH st1 Hq1 K) as (Hq' & cs & X' & F').
      split; [exact Hq'|]. exists (c :: cs). split.
      * cbn [frames_events]. rewrite Wh in X'. exact (tty_ext_trans _ _ _ _ _ X X').
      * constructor; [split; assumption | exact F'].
Qed.

(** C8: the chunk capacity is 254*3 bytes under screen and 2048*3 bytes
    otherwise, a multiple of 3.  When no write fails, the device receives,
    between the termios calls, one iteration per chunk and then the footer;
    each chunk is non-empty and at most that capacity, and under screen each
    iteration is enclosed in [ESC P] ... [ESC \] (see [iteration_events]). *)
Theorem screen_chunks o e r t :
  op o = OP_WRITE -> wok (dev0 e) = [] -> join_args [] (args e) <> None ->
  main o e = Some (r, t) ->
  read_buf_size o = (if is_screen o then 254 * 3 else 2048 * 3)%nat
  /\ Nat.modulo (read_buf_size o) 3 = 0%nat
  /\ exists cs,
       trace t = trace (dev0 e) ++ mode_enter e ++ frames_events o true cs
                 ++ [Wr true (seq_end o)] ++ mode_leave e
       /\ Forall (fun c => c <> [] /\ (length c <= read_buf_size o)%nat) cs.
Proof.
  intros Hop Hq Hj H. split; [unfold read_buf_size; destruct (is_screen o); reflexivity|].
  split; [unfold read_buf_size; destruct (is_screen o); reflexivity|].
  unfold main in H. rewrite Hop in H.
  destruct (enter_trace e) as (T1 & _ & _).
  set (t1 := if isatty e then log (log (dev0 e) ModeSave) ModeSet else dev0 e) in *.
  assert (Hq1 : wok t1 = []) by (subst t1; destruct (isatty e); exact Hq).
  destruct (match args e with
            | [] => Some (stdin e)
            | _ => match join_args [] (args e) with
                   | Some buf => Some (open_file buf false) | None => None end
            end) as [f|] eqn:Ei.
  - destruct (transfer o f t1) as [[[r0 t2] w]|] eqn:Et; [|discriminate].
    injection H as <- <-. unfold transfer in Et.
    destruct (copy_loop _ _ _) as [st|] eqn:E; [|discriminate].
    injection Et as _ <- _.
    destruct (copy_loop_frames _ _ (mkl f t1 true 0 EXIT_SUCCESS) _ Hq1 E)
      as (Hq2 & cs & (X1 & _ & _) & F). cbn [dev write_header] in *.
    unfold fputs. pose proof (write_attempt_spec (seq_end o) (dev st)) as W.
    destruct (write_attempt (seq_end o) (dev st)) as [ok t3]. cbn [snd].
    destruct W as (W1 & _ & _ & W4). destruct (W4 Hq2) as [-> _].
    exists cs. split; [|exact F].
    rewrite leave_trace, W1, X1, T1, <- !app_assoc. reflexivity.
  - exfalso. destruct (args e) as [|a m] eqn:Ea; [discriminate Ei|].
    destruct (join_args [] (a :: m)); [discriminate Ei|]. apply Hj. reflexivity.
Qed.

Lemma screen_chunks_witness :
  exists r t, main screen_opts (stdin_env (str "hi")) = Some (r, t)
    /\ exists cs, trace t = [] ++ [] ++ frames_events screen_opts true cs
                            ++ [Wr true (seq_end screen_opts)] ++ []
    /\ Forall (fun c => c <> [] /\ (length c <= 762)%nat) cs.
Proof.
  destruct (main screen_opts (stdin_env (str "hi"))) as [[r t]|] eqn:Hm;
    [|vm_compute in Hm; discriminate Hm].
  exists r, t. split; [reflexivity|].
  destruct (screen_chunks screen_opts (stdin_env (str "hi")) r t) as (_ & _ & cs & T & F).
  - reflexivity.
  - reflexivity.
  - discriminate.
  - exact Hm.
  - exists cs. split; [exact T | exact F].
Defined.

(** ** Whole copies *)

(** The encoding loop of [base64_encode] works on groups of 3 bytes: the
    encoding of [a ++ b] is that of [a] followed by that of [b] when the
    length of [a] is a multiple of 3. *)
Lemma b64_loop_app a b :
  (length a mod 3 = 0)%nat -> b64_loop (a ++ b) = b64_loop a ++ b64_loop b.
Proof.
  revert b. induction a as [a IH] using strong_list_ind. intros b Ha.
  destruct a as [|x [|y [|z r]]]; [reflexivity | discriminate | discriminate|].
  cbn [app b64_loop]. simpl length in Ha.
  replace (S (S (S (length r)))) with (length r + 1 * 3)%nat in Ha by lia.
  rewrite Nat.Div0.mod_add in Ha.
  rewrite (IH r); [reflexivity | simpl length; lia | exact Ha].
Qed.

Lemma chunks_fuel_enough f1 f2 n l :
  (1 <= n)%nat -> (length l <= f1)%nat -> (length l <= f2)%nat ->
  chunks_fuel f1 n l = chunks_fuel f2 n l.
Proof.
  revert f2 l. induction f1 as [|f1 IH]; intros f2 l Hn H1 H2.
  - destruct l; [destruct f2; reflexivity | simpl in H1; lia].
  - destruct l as [|x xs]; [destruct f2; reflexivity|].
    destruct f2 as [|f2]; [simpl in H2; lia|].
    cbn [chunks_fuel]. f_equal. apply IH; [exact Hn| |]; rewrite length_skipn; simpl length in *; lia.
Qed.

Lemma chunk_list_nil n : chunk_list n [] = [].
Proof. reflexivity. Qed.

Lemma chunk_list_cons n l :
  (1 <= n)%nat -> l <> [] -> chunk_list n l = firstn n l :: chunk_list n (skipn n l).
Proof.
  intros Hn Hl. unfold chunk_list. destruct l as [|x xs]; [congruence|].
  cbn [length chunks_fuel]. f_equal. apply chunks_fuel_enough; [exact Hn| |reflexivity].
  rewrite length_skipn. simpl length. lia.
Qed.

Lemma chunk_list_single n l :
  (1 <= n)%nat -> l <> [] -> (length l <= n)%nat -> chunk_list n l = [l].
Proof.
  intros Hn Hl Hle. rewrite chunk_list_cons by assumption.
  rewrite firstn_all2 by exact Hle. rewrite skipn_all2 by exact Hle. reflexivity.
Qed.

Lemma chunk_list_props n l :
  (1 <= n)%nat ->
  concat (chunk_list n l) = l /\ Forall (fun c => c <> [] /\ (length c <= n)%nat) (chunk_list n l).
Proof.
  intros Hn. induction l as [l IH] using strong_list_ind.
  destruct l as [|x xs]; [split; [reflexivity | constructor]|].
  rewrite chunk_list_cons by (auto; discriminate).
  destruct (IH (skipn n (x :: xs))) as [C F]; [rewrite length_skipn; simpl length; lia|].
  split.
  - cbn [concat]. rewrite C. apply firstn_skipn.
  - constructor; [|exact F]. split; [|rewrite length_firstn; lia].
    destruct n; [lia|]. discriminate.
Qed.

(** Base64 encoding chunk by chunk, with chunks of a multiple of 3 bytes, is
    the encoding of the whole. *)
Lemma concat_chunks_b64 n l :
  (1 <= n)%nat -> (n mod 3 = 0)%nat -> concat (map b64_loop (chunk_list n l)) = b64_loop l.
Proof.
  intros Hn H3. induction l as [l IH] using strong_list_ind.
  destruct l as [|x xs]; [reflexivity|].
  rewrite chunk_list_cons by (auto; discriminate). cbn [map concat].
  destruct (Nat.le_gt_cases (length (x :: xs)) n) as [Hle | Hgt].
  - rewrite firstn_all2, skipn_all2 by exact Hle. cbn. apply app_nil_r.
  - rewrite IH by (rewrite length_skipn; lia).
    rewrite <- b64_loop_app by (rewrite length_firstn, Nat.min_l by lia; exact H3).
    rewrite firstn_skipn. reflexivity.
Qed.

Lemma fgetc_reads fa f l :
  reads fa f l ->
  fgetc f = match l with [] => (EOF, at_end fa) | c :: r => (c, mkfile [] r false false fa) end.
Proof.
  intros [-> | [(c & r & -> & ->) | (-> & ->)]].
  - destruct l; [destruct fa|]; reflexivity.
  - reflexivity.
  - destruct fa; reflexivity.
Qed.

Lemma fread_reads fa f l m :
  reads fa f l -> Forall is_byte l ->
  fread (S m) f = (firstn (S m) l,
                   if (length l <=? m)%nat then at_end fa
                   else mkfile [] (skipn (S m) l) false false fa).
Proof.
  revert f l. induction m as [|m IH]; intros f l R B.
  - cbn [fread]. rewrite (fgetc_reads fa f l R).
    destruct l as [|c r]; [reflexivity|]. inversion B; subst.
    rewrite (byte_not_eof c ltac:(assumption)). reflexivity.
  - change (fread (S (S m)) f) with
      (let (c, f1) := fgetc f in
       if c =? EOF then ([], f1) else let (cs, f2) := fread (S m) f1 in (c :: cs, f2)).
    rewrite (fgetc_reads fa f l R).
    destruct l as [|c r]; [reflexivity|]. inversion B; subst.
    rewrite (byte_not_eof c ltac:(assumption)).
    rewrite (IH (mkfile [] r false false fa) r) by (auto; left; reflexivity).
    reflexivity.
Qed.

Lemma fpeek_reads fa f l :
  reads fa f l -> Forall is_byte l ->
  fpeek f = match l with [] => (EOF, at_end fa) | c :: r => (c, mkfile [c] r false false fa) end.
Proof.
  intros R B. unfold fpeek. rewrite (fgetc_reads fa f l R).
  destruct l as [|c r]; [reflexivity|]. inversion B; subst. unfold ungetc.
  rewrite (byte_not_eof c ltac:(assumption)). reflexivity.
Qed.

Lemma size_t_bound x : 0 <= size_t x < 2 ^ 64.
Proof. unfold size_t. apply Z.mod_pos_bound. lia. Qed.

Lemma read_buf_size_props o : (1 <= read_buf_size o)%nat /\ (read_buf_size o mod 3 = 0)%nat.
Proof. unfold read_buf_size. destruct (is_screen o); split; try reflexivity; apply Nat.leb_le; reflexivity. Qed.

Lemma base64_encode_fit o c :
  (length c <= read_buf_size o)%nat ->
  base64_encode c (enc_buf_size o) = Some (b64_loop c ++ [0], Z.of_nat (length (b64_loop c))).
Proof.
  intros H. pose proof (copy_loop_fits o c H) as F. unfold base64_encode in *.
  destruct (_ >=? _); [reflexivity | contradiction].
Qed.

Lemma fputs_quiet bs tr te ti :
  fputs bs (mktty tr te [] ti) = (0, mktty (tr ++ [Wr true bs]) te [] ti).
Proof. unfold fputs, write_attempt. cbn. rewrite orb_false_r. reflexivity. Qed.

Lemma fwrite_quiet bs tr te ti :
  fwrite bs (mktty tr te [] ti) = (Z.of_nat (length bs), mktty (tr ++ [Wr true bs]) te [] ti).
Proof. unfold fwrite, write_attempt. cbn. rewrite orb_false_r. reflexivity. Qed.

Lemma firstn_enc (e : list Z) : firstn (Z.to_nat (Z.of_nat (length e))) (e ++ [0]) = e.
Proof. rewrite Nat2Z.id, firstn_app, firstn_all, Nat.sub_diag. apply app_nil_r. Qed.

Lemma reads_skipn fa m xs :
  reads fa (if (S (length xs) <=? m)%nat then at_end fa else mkfile [] (skipn m xs) false false fa)
        (skipn m xs).
Proof.
  change (S (length xs) <=? m)%nat with (length xs <? m)%nat.
  destruct (Nat.ltb_spec (length xs) m).
  - right; right. split; [apply skipn_all2; lia | reflexivity].
  - left. reflexivity.
Qed.

Lemma last_cons_cons (x y : Z) l d : last (x :: y :: l) d = last (y :: l) d.
Proof. reflexivity. Qed.

Lemma last_app_ne (p q : list Z) d : q <> [] -> last (p ++ q) d = last q d.
Proof.
  intros Hq. induction p as [|x p IH]; [reflexivity|].
  cbn [app]. rewrite <- IH. destruct (p ++ q) eqn:E; [destruct p, q; discriminate || congruence|].
  reflexivity.
Qed.

(** Trimming only concerns the last chunk. *)
Lemma trimmed_split o p q :
  q <> [] -> trimmed o (p ++ q) = p ++ trimmed o q.
Proof.
  intros Hq. unfold trimmed. rewrite last_app_ne by exact Hq.
  destruct (_ && _); [apply removelast_app; exact Hq | reflexivity].
Qed.

Lemma trimmed_nil o : trimmed o [] = [].
Proof. unfold trimmed. destruct (trim_newline o); reflexivity. Qed.

Lemma chunk_list_app_full n p q :
  length p = n -> p <> [] -> chunk_list n (p ++ q) = p :: chunk_list n q.
Proof.
  intros Hp Hne. rewrite chunk_list_cons.
  - rewrite <- Hp, firstn_app, firstn_all, Nat.sub_diag, firstn_O, app_nil_r.
    rewrite skipn_app, skipn_all, Nat.sub_diag, skipn_O. reflexivity.
  - destruct p; [congruence | simpl in Hp; lia].
  - destruct p; [congruence | discriminate].
Qed.

Lemma frames_events_cons o wh c cs :
  frames_events o wh (c :: cs) = iteration_events o wh true true true true (b64_loop c) ++ frames_events o false cs.
Proof. reflexivity. Qed.

Ltac fin_frames :=
  rewrite frames_events_cons; unfold iteration_events;
  match goal with E : is_screen _ = _ |- _ => rewrite E end;
  cbn [app andb]; rewrite <- !app_assoc; cbn [app]; reflexivity.

Ltac emit_exact IH EN Hlenb o c' l' :=
  rewrite (base64_encode_fit o c' Hlenb); cbn beta iota zeta;
  rewrite firstn_enc;
  destruct (is_screen o) eqn:Es;
  match goal with |- context [if ?w then _ else _] => is_var w; destruct w end;
  repeat (first [rewrite fputs_quiet | rewrite fwrite_quiet]; cbn [fst snd]);
  rewrite Z.eqb_refl; cbn [negb];
  repeat (first [rewrite fputs_quiet | rewrite fwrite_quiet]; cbn [fst snd]);
  match goal with
  | |- exists st', copy_loop _ o ?S = Some st' /\ _ =>
      let st' := fresh "st'" in
      let E1 := fresh "E1" in let E2 := fresh "E2" in let E3 := fresh "E3" in
      let E4 := fresh "E4" in let E5 := fresh "E5" in let E6 := fresh "E6" in
      let E7 := fresh "E7" in let E8 := fresh "E8" in
      destruct (IH S l' ltac:(assumption) ltac:(assumption) eq_refl ltac:(assumption)
                  ltac:(cbn [input_len]; apply size_t_bound))
        as (st' & E1 & E2 & E3 & E4 & E5 & E6 & E7 & E8);
      exists st'; split; [exact E1|]; split; [exact E2|];
      cbn [dev trace terr wok tin input_len rc write_header] in *;
      try rewrite EN in E3;
      (split; [rewrite E3|]);
      [| repeat split; try assumption; rewrite E7; unfold size_t;
         rewrite Z.add_mod_idemp_l by lia; f_equal; cbn [length] in *; lia]
  end.

Lemma copy_loop_exact o fuel st fa l :
  reads fa (input st) l -> Forall is_byte l -> wok (dev st) = [] -> (length l < fuel)%nat ->
  0 <= input_len st < 2 ^ 64 ->
  exists st', copy_loop fuel o st = Some st'
    /\ input st' = at_end fa
    /\ trace (dev st') = trace (dev st)
         ++ frames_events o (write_header st) (chunk_list (read_buf_size o) (trimmed o l))
    /\ terr (dev st') = terr (dev st) /\ wok (dev st') = [] /\ tin (dev st') = tin (dev st)
    /\ input_len st' = size_t (input_len st + Z.of_nat (length l))
    /\ rc st' = rc st.
Proof.
  revert st l. induction fuel as [|fuel IH]; intros st l R B Hw Hf Hil0; [lia|].
  destruct (read_buf_size_props o) as [Hn H3].
  destruct st as [inp [tr te w ti] wh il rc0].
  cbn [input dev write_header input_len rc wok trace terr tin] in *. subst w.
  cbn [copy_loop input dev write_header input_len rc].
  destruct (read_buf_size o) as [|m] eqn:EN; [lia|].
  rewrite (fread_reads fa inp l m R B).
  destruct l as [|x xs].
  - eexists. split; [reflexivity|]. cbn [length Nat.leb].
    unfold trimmed, size_t. rewrite Z.add_0_r, (Z.mod_small il) by exact Hil0.
    destruct (trim_newline o); cbn; rewrite ?app_nil_r; repeat split; reflexivity.
  - cbn [firstn skipn length]. cbn [length] in Hf.
    set (in1 := if (S (length xs) <=? m)%nat then at_end fa else mkfile [] (skipn m xs) false false fa).
    assert (R1 : reads fa in1 (skipn m xs)) by apply reads_skipn.
    pose proof (firstn_skipn m xs) as FS.
    assert (B1 : Forall is_byte (skipn m xs)).
    { rewrite <- FS in B. inversion B as [|? ? _ B2]. apply Forall_app in B2. tauto. }
    assert (Hlen1 : (length (skipn m xs) < fuel)%nat) by (rewrite length_skipn; lia).
    assert (Hc : (length (x :: firstn m xs) <= read_buf_size o)%nat)
      by (rewrite EN; simpl length; rewrite length_firstn; lia).
    assert (Hil : (length (x :: xs) = length (x :: firstn m xs) + length (skipn m xs))%nat)
      by (cbn [length]; rewrite <- FS at 1; rewrite length_app; lia).
    cbn beta iota zeta.
    destruct (trim_newline o) eqn:Et.
    + rewrite (fpeek_reads fa in1 _ R1 B1).
      destruct (skipn m xs) as [|c r] eqn:Er.
      * rewrite app_nil_r in FS. rewrite FS in *. rewrite Z.eqb_refl. cbn [andb]. unfold last_byte.
        destruct (last (x :: xs) 0 =? 10) eqn:El.
        -- cbn [andb]. destruct (length (removelast (x :: xs)) =? 0)%nat eqn:Ez.
           ++ eexists. split; [reflexivity|]. cbn [dev trace terr wok tin input_len rc input write_header].
              unfold trimmed. rewrite Et, El. cbn [andb].
              apply Nat.eqb_eq, length_zero_iff_nil in Ez. rewrite Ez, chunk_list_nil.
              cbn [frames_events]. rewrite app_nil_r. repeat split; reflexivity.
           ++ assert (Hne : removelast (x :: xs) <> []) by (intros E; rewrite E in Ez; discriminate).
              assert (Hb : (length (removelast (x :: xs)) <= read_buf_size o)%nat)
                by (pose proof (removelast_length_le (x :: xs)); lia).
              assert (R2 : reads fa (at_end fa) []) by (right; right; auto).
              assert (Ht : trimmed o (x :: xs) = removelast (x :: xs))
                by (unfold trimmed; rewrite Et, El; reflexivity).
              emit_exact IH EN Hb o (removelast (x :: xs)) (@nil Z).
              all: rewrite trimmed_nil, chunk_list_nil, Ht.
              all: rewrite (chunk_list_single (S m) (removelast (x :: xs))) by (auto; rewrite <- EN; exact Hb).
              all: fin_frames.
        -- assert (R2 : reads fa (at_end fa) []) by (right; right; auto).
           assert (Ht : trimmed o (x :: xs) = x :: xs)
             by (unfold trimmed; rewrite Et, El; reflexivity).
           cbn [andb].
           emit_exact IH EN Hc o (x :: xs) (@nil Z).
           all: rewrite trimmed_nil, chunk_list_nil, Ht.
           all: rewrite (chunk_list_single (S m) (x :: xs)) by first [lia | (intros E; discriminate E) | (rewrite <- EN; exact Hc)].
           all: fin_frames.
      * inversion B1 as [|? ? Bc Br]. rewrite (byte_not_eof c Bc). cbn [andb].
        assert (R2 : reads fa (mkfile [c] r false false fa) (c :: r)) by (right; left; eauto).
        assert (Hm : (m < length xs)%nat).
        { destruct (Nat.lt_ge_cases m (length xs)) as [?|Hge]; [assumption|].
          rewrite skipn_all2 in Er by exact Hge. discriminate. }
        assert (Ht : chunk_list (S m) (trimmed o (x :: xs))
                     = (x :: firstn m xs) :: chunk_list (S m) (trimmed o (c :: r))).
        { replace (x :: xs) with ((x :: firstn m xs) ++ (c :: r)) by (cbn [app]; rewrite FS; reflexivity).
          rewrite trimmed_split by discriminate.
          apply chunk_list_app_full; [simpl length; rewrite length_firstn; lia | (intros E; discriminate E)]. }
        emit_exact IH EN Hc o (x :: firstn m xs) (c :: r).
        all: rewrite Ht; fin_frames.
    + cbn [andb].
      assert (Ht : chunk_list (S m) (trimmed o (x :: xs))
                   = (x :: firstn m xs) :: chunk_list (S m) (trimmed o (skipn m xs))).
      { unfold trimmed. rewrite Et. cbn [andb].
        rewrite (chunk_list_cons (S m) (x :: xs)) by first [lia | (intros E; discriminate E)]. reflexivity. }
      emit_exact IH EN Hc o (x :: firstn m xs) (skipn m xs).
      all: rewrite Ht; fin_frames.
Qed.


(** ** Whole runs *)

(** The copy branch on a stream over the bytes [s] and a device on which
    every write succeeds: one iteration per chunk of [read_buf_size] bytes of
    the (trimmed) input, the header with the first, then the footer; the exit
    code is [ERR_IO] exactly when the stream fails at its end, and the size
    warning is printed exactly when the [size_t] count of input bytes, the
    length of [s] modulo [2^64], exceeds [OSC_SAFE_LIMIT]. *)
Theorem transfer_exact o s fa t :
  Forall is_byte s -> wok t = [] ->
  transfer o (open_file s fa) t
  = Some (if fa then ERR_IO else EXIT_SUCCESS,
          mktty (trace t ++ frames_events o true (chunk_list (read_buf_size o) (trimmed o s))
                 ++ [Wr true (seq_end o)]) (terr t) [] (tin t),
          size_t (Z.of_nat (length s)) >? OSC_SAFE_LIMIT).
Proof.
  intros B Hw. unfold transfer. cbn [ungot rest open_file app].
  destruct (copy_loop_exact o (S (length s)) (mkl (open_file s fa) t true 0 EXIT_SUCCESS) fa s
              (or_introl eq_refl) B Hw ltac:(lia) ltac:(cbn; lia)) as (st' & E1 & E2 & E3 & E4 & E5 & E6 & E7 & E8).
  rewrite E1. destruct st' as [i [tr te w ti] wh il rc0].
  cbn [input dev write_header input_len rc trace terr wok tin] in *. subst.
  rewrite fputs_quiet. cbn [snd]. unfold at_end. destruct fa; cbn [err]; rewrite <- app_assoc; reflexivity.
Qed.

(** [main] on the copy operation, reading [stdin] or the joined arguments,
    on a device on which every write succeeds: the whole device trace, and
    [ERR_IO] exactly when the device already had its error indicator set or
    the input stream fails. *)
Theorem main_write_exact o e s fa :
  op o = OP_WRITE -> wok (dev0 e) = [] -> Forall is_byte s ->
  (args e = [] /\ stdin e = open_file s fa)
  \/ (args e <> [] /\ join_args [] (args e) = Some s /\ fa = false) ->
  main o e = Some (if ferror_tty (dev0 e) || fa then ERR_IO else EXIT_SUCCESS,
    mktty (trace (dev0 e) ++ mode_enter e
           ++ frames_events o true (chunk_list (read_buf_size o) (trimmed o s))
           ++ [Wr true (seq_end o)] ++ mode_leave e)
          (terr (dev0 e)) [] (tin (dev0 e))).
Proof.
  intros Hop Hw B Hin. unfold main. rewrite Hop.
  assert (Hinp : match args e with
                 | [] => Some (stdin e)
                 | _ => match join_args [] (args e) with
                        | Some buf => Some (open_file buf false) | None => None end
                 end = Some (open_file s fa)).
  { destruct Hin as [[A S] | (A & J & F)].
    - rewrite A, S. reflexivity.
    - subst fa. destruct (args e); [congruence|]. rewrite J. reflexivity. }
  rewrite Hinp.
  destruct e as [isa a si [tr te w ti]]. cbn [dev0 wok isatty] in *. subst w.
  unfold mode_enter, mode_leave, ferror_tty. cbn [isatty].
  destruct isa;
    rewrite transfer_exact by (exact B || reflexivity); unfold log; cbn [trace terr wok tin err];
    destruct (te || err ti), fa; cbn [orb];
    rewrite <- ?app_assoc; cbn [app]; rewrite ?app_nil_r; reflexivity.
Qed.

Lemma output_app a b : output (a ++ b) = output a ++ output b.
Proof.
  induction a as [|ev a IH]; [reflexivity|].
  destruct ev as [[|] bs| | |]; cbn [app output]; rewrite ?IH, ?app_assoc; reflexivity.
Qed.

Lemma output_mode_enter e : output (mode_enter e) = [].
Proof. unfold mode_enter. destruct (isatty e); reflexivity. Qed.

Lemma output_mode_leave e : output (mode_leave e) = [].
Proof. unfold mode_leave. destruct (isatty e); reflexivity. Qed.

Lemma output_frames_plain o wh cs :
  is_screen o = false ->
  output (frames_events o wh cs)
  = (if wh then match cs with [] => [] | _ => seq_start o end else []) ++ concat (map b64_loop cs).
Proof.
  intros Hs. revert wh. induction cs as [|c cs IH]; intros wh; [destruct wh; reflexivity|].
  rewrite frames_events_cons, output_app, IH. unfold iteration_events. rewrite Hs.
  destruct wh; cbn [app andb output map concat]; rewrite ?app_nil_r, ?app_assoc; reflexivity.
Qed.

(** What reaches the device off GNU screen: the header (unless the trimmed
    input is empty), the base64 encoding of the whole trimmed input in one
    piece, and the footer. *)
Theorem main_write_output o e s fa :
  op o = OP_WRITE -> is_screen o = false -> wok (dev0 e) = [] -> Forall is_byte s ->
  (args e = [] /\ stdin e = open_file s fa)
  \/ (args e <> [] /\ join_args [] (args e) = Some s /\ fa = false) ->
  main_output o e = Some (if ferror_tty (dev0 e) || fa then ERR_IO else EXIT_SUCCESS,
    output (trace (dev0 e))
    ++ match trimmed o s with [] => [] | _ => seq_start o end
    ++ b64_loop (trimmed o s) ++ seq_end o).
Proof.
  intros Hop Hs Hw B Hin. unfold main_output. rewrite (main_write_exact o e s fa Hop Hw B Hin).
  cbn [option_map fst snd trace].
  rewrite !output_app, output_mode_enter, output_mode_leave, output_frames_plain by exact Hs.
  destruct (read_buf_size_props o) as [H1 H3].
  rewrite concat_chunks_b64 by assumption.
  cbn [output]. rewrite !app_nil_r.
  destruct (trimmed o s) as [|x l] eqn:Et.
  - rewrite chunk_list_nil. reflexivity.
  - rewrite chunk_list_cons by (assumption || (intros E; discriminate E)).
    rewrite <- !app_assoc. reflexivity.
Qed.

Lemma join_args_nonempty buf args :
  buf <> [] ->
  join_args buf args
  = match args with
    | [] => Some buf
    | _ => if Z.of_nat (length (buf ++ concat (map (cons 32) args))) + 1 <=? OSC_SAFE_LIMIT
           then Some (buf ++ concat (map (cons 32) args)) else None
    end.
Proof.
  revert buf. induction args as [|a r IH]; intros buf Hb; [reflexivity|].
  cbn [join_args]. destruct (length buf) as [|k] eqn:Lb; [destruct buf; [congruence | discriminate]|].
  cbn [Nat.ltb Nat.leb]. rewrite <- Lb.
  cbn [map concat]. rewrite !length_app. cbn [length]. rewrite ?length_app.
  destruct (Z.of_nat (length buf) + Z.of_nat (length a) + 2 >? OSC_SAFE_LIMIT) eqn:C.
  - apply Z.gtb_lt in C. replace (_ <=? _) with false; [reflexivity|]. symmetry. apply Z.leb_gt. lia.
  - rewrite Z.gtb_ltb in C; apply Z.ltb_ge in C. rewrite IH by (destruct buf; [congruence | discriminate]).
    destruct r as [|a2 r].
    + cbn [map concat]. rewrite app_nil_r.
      cbn [length]. replace (Z.of_nat _ + 1 <=? OSC_SAFE_LIMIT) with true by (symmetry; apply Z.leb_le; lia).
      rewrite <- app_assoc. reflexivity.
    + rewrite <- !app_assoc. cbn [app]. rewrite !length_app. cbn [length]. rewrite ?length_app.
      match goal with
      | |- (if Z.of_nat ?n1 + 1 <=? _ then _ else _) = (if Z.of_nat ?n2 + 1 <=? _ then _ else _) =>
          replace n1 with n2 by lia
      end.
      reflexivity.
Qed.

(** The joined command line: the arguments separated by single spaces,
    leading empty arguments dropped (later ones each add a space); it is
    refused when a single remaining argument is longer than
    [OSC_SAFE_LIMIT - 2] bytes, or when the joined text of several is longer
    than [OSC_SAFE_LIMIT - 1] bytes. *)
Theorem join_args_exact args :
  join_args [] args
  = match drop_empty args with
    | [] => Some []
    | [a] => if Z.of_nat (length a) + 2 <=? OSC_SAFE_LIMIT then Some a else None
    | _ => if Z.of_nat (length (join_sp (drop_empty args))) + 1 <=? OSC_SAFE_LIMIT
           then Some (join_sp (drop_empty args)) else None
    end.
Proof.
  induction args as [|a r IH]; [reflexivity|].
  cbn [join_args length Nat.ltb Nat.leb app].
  destruct a as [|x a].
  - cbn [drop_empty length]. rewrite <- IH. reflexivity.
  - cbn [drop_empty join_sp].
    rewrite join_args_nonempty by (intros E; discriminate E).
    destruct (Z.of_nat 0 + Z.of_nat (length (x :: a)) + 2 >? OSC_SAFE_LIMIT) eqn:C.
    + apply Z.gtb_lt in C. destruct r as [|a2 r].
      * replace (_ <=? _) with false; [reflexivity|]. symmetry. apply Z.leb_gt. lia.
      * cbn [map concat]. replace (_ <=? _) with false; [reflexivity|]. symmetry. apply Z.leb_gt.
        rewrite !length_app. cbn [length] in *. lia.
    + rewrite Z.gtb_ltb in C; apply Z.ltb_ge in C. destruct r as [|a2 r].
      * cbn [length] in *. replace (_ <=? _) with true by (symmetry; apply Z.leb_le; lia). reflexivity.
      * reflexivity.
Qed.

Lemma read_reply_upto n tr te w fa s rs :
  forallb no_R s = true -> (length s < n)%nat ->
  read_reply n (mktty tr te w (mkfile [] (s ++ 82 :: rs) false false fa))
  = (Some (s ++ [82]), mktty tr te w (mkfile [] rs false false fa)).
Proof.
  revert n. induction s as [|c s IH]; intros n H Hl; (destruct n as [|n]; [cbn [length] in Hl; lia|]).
  - reflexivity.
  - cbn [forallb] in H. apply andb_prop in H as [Hc H]. unfold no_R in Hc.
    apply andb_prop in Hc as [Hc0 Hc1]. apply negb_true_iff in Hc1. apply Z.leb_le in Hc0.
    cbn [read_reply app]. unfold tty_fgetc, fgetc. cbn [ungot eof rest tin trace terr wok set_rest].
    replace (c <? 0) with false by (symmetry; apply Z.ltb_ge; lia). rewrite Hc1.
    rewrite IH by (exact H || (cbn [length] in Hl; lia)). reflexivity.
Qed.

Lemma read_reply_short n tr te w fa s :
  forallb no_R s = true -> (length s < n)%nat ->
  fst (read_reply n (mktty tr te w (mkfile [] s false false fa))) = None.
Proof.
  revert n. induction s as [|c s IH]; intros n H Hl; (destruct n as [|n]; [cbn [length] in Hl; lia|]).
  - cbn [read_reply]. unfold tty_fgetc, fgetc. cbn [ungot eof rest tin].
    destruct fa; reflexivity.
  - cbn [forallb] in H. apply andb_prop in H as [Hc H]. unfold no_R in Hc.
    apply andb_prop in Hc as [Hc0 Hc1]. apply negb_true_iff in Hc1. apply Z.leb_le in Hc0.
    cbn [read_reply]. unfold tty_fgetc, fgetc. cbn [ungot eof rest tin trace terr wok set_rest].
    replace (c <? 0) with false by (symmetry; apply Z.ltb_ge; lia). rewrite Hc1.
    specialize (IH n H ltac:(cbn [length] in Hl; lia)).
    destruct (read_reply n _) as [[l|] t2]; [discriminate IH | reflexivity].
Qed.

Lemma digit_props c : c_isdigit c = true -> no_R c = true /\ (c =? 0) = false /\ c_isspace c = false
  /\ (c =? 45) = false /\ (c =? 43) = false /\ 48 <= c <= 57.
Proof.
  unfold c_isdigit, no_R, c_isspace. intros H. apply andb_prop in H as [H1 H2].
  apply Z.leb_le in H1. apply Z.leb_le in H2.
  repeat split; repeat first [rewrite Bool.andb_true_iff | rewrite Bool.orb_false_iff | rewrite Bool.andb_false_iff
                             | rewrite Bool.negb_true_iff | rewrite Z.eqb_neq | rewrite Z.leb_le | rewrite Z.leb_gt];
    lia.
Qed.

Lemma cstr_app_nozero s r : forallb (fun c => negb (c =? 0)) s = true -> cstr (s ++ r) = s ++ cstr r.
Proof.
  induction s as [|c s IH]; intros H; [reflexivity|].
  cbn [forallb] in H. apply andb_prop in H as [Hc H]. apply negb_true_iff in Hc.
  cbn [app cstr]. destruct c as [|p|p]; [discriminate Hc| |]; rewrite IH by exact H; reflexivity.
Qed.

Lemma span_digits_app ds r :
  forallb c_isdigit ds = true -> match r with c :: _ => c_isdigit c = false | [] => True end ->
  span_digits (ds ++ r) = (ds, r).
Proof.
  intros H Hr. induction ds as [|d ds IH].
  - destruct r as [|c r]; [reflexivity|]. cbn [app span_digits]. rewrite Hr. reflexivity.
  - cbn [forallb] in H. apply andb_prop in H as [Hd H]. cbn [app span_digits]. rewrite Hd, IH by exact H.
    reflexivity.
Qed.

Lemma scan_d_digits ds r :
  ds <> [] -> forallb c_isdigit ds = true -> match r with c :: _ => c_isdigit c = false | [] => True end ->
  scan_d (ds ++ r) = Some (digits_value ds, r).
Proof.
  intros Hne H Hr. destruct ds as [|d ds']; [congruence|].
  cbn [forallb] in H. apply andb_prop in H as [Hd H'].
  destruct (digit_props d Hd) as (_ & _ & Hs & H45 & H43 & Hb).
  unfold scan_d. cbn [app skip_space]. rewrite Hs.
  assert (Hsp : span_digits ((d :: ds') ++ r) = (d :: ds', r))
    by (apply span_digits_app; [cbn [forallb]; rewrite Hd, H'; reflexivity | exact Hr]).
  cbn [app] in Hsp.
  destruct d as [|p|p]; [lia| |lia].
  destruct (Z.eq_dec (Z.pos p) 45) as [E|E]; [rewrite E in H45; discriminate H45|].
  destruct (Z.eq_dec (Z.pos p) 43) as [E'|E']; [rewrite E' in H43; discriminate H43|].
  assert (Hm : match Z.pos p :: ds' ++ r with
               | 45 :: r0 => (-1, r0) | 43 :: r0 => (1, r0) | _ => (1, Z.pos p :: ds' ++ r) end
               = (1, Z.pos p :: ds' ++ r)).
  { do 7 (destruct p as [p|p|]; try reflexivity; try lia). }
  rewrite Hm. cbn beta iota zeta. rewrite Hsp. rewrite Z.mul_1_l. reflexivity.
Qed.

Lemma cpr_col_nonneg x y : cpr_valid x y -> 0 <= digits_value y.
Proof.
  intros (_ & _ & D & _). rewrite forallb_app in D. apply andb_prop in D as [_ D].
  unfold digits_value.
  assert (G : forall acc, 0 <= acc -> 0 <= fold_left (fun acc d => acc * 10 + (d - 48)) y acc).
  { induction y as [|z y IH]; intros acc Ha; [exact Ha|]. cbn [fold_left forallb] in *.
    apply andb_prop in D as [Dz D]. destruct (digit_props z Dz) as (_ & _ & _ & _ & _ & Hz).
    apply IH; [exact D | lia]. }
  apply G; lia.
Qed.

(** A well-formed cursor position report yields its column; the query is
    written and exactly the report is consumed from the terminal input. *)
Theorem get_cursor_column_reply t fa ds1 ds2 rs :
  wok t = [] -> tin t = open_file (cpr_reply ds1 ds2 ++ rs) fa -> cpr_valid ds1 ds2 ->
  get_cursor_column t
  = (digits_value ds2, mktty (trace t ++ [Wr true cpr_query]) (terr t) [] (open_file rs fa)).
Proof.
  unfold cpr_reply, cpr_valid, cpr_query.
  intros Hw Hin (N1 & N2 & D & Hl & _ & _). destruct t as [tr te w ti]. cbn [wok tin trace terr] in *. subst w ti.
  rewrite forallb_app in D. apply andb_prop in D as [D1 D2].
  unfold get_cursor_column. rewrite fputs_quiet. cbn [fst snd]. rewrite Z.ltb_irrefl.
  assert (Nr : forall l, forallb c_isdigit l = true -> forallb no_R l = true /\ forallb (fun c => negb (c =? 0)) l = true).
  { induction l as [|c l IH]; intros H; [split; reflexivity|].
    cbn [forallb] in *. apply andb_prop in H as [Hc H]. destruct (digit_props c Hc) as (A & B & _).
    rewrite A, B. destruct (IH H) as [E1 E2]. rewrite E1, E2. split; reflexivity. }
  destruct (Nr ds1 D1) as [R1 Z1]. destruct (Nr ds2 D2) as [R2 Z2].
  unfold open_file.
  replace (([ESC; 91] ++ ds1 ++ [59] ++ ds2 ++ [82]) ++ rs) with (([ESC; 91] ++ ds1 ++ [59] ++ ds2) ++ 82 :: rs)
    by (rewrite <- !app_assoc; reflexivity).
  rewrite read_reply_upto.
  2:{ rewrite !forallb_app, R1, R2. reflexivity. }
  2:{ rewrite !length_app. cbn [length]. lia. }
  rewrite <- !app_assoc. cbn [app]. unfold ESC. cbn [cstr].
  rewrite (cstr_app_nozero ds1) by exact Z1. cbn [cstr app].
  rewrite (cstr_app_nozero ds2) by exact Z2. cbn [cstr].
  unfold ESC. unfold sscanf_cpr.
  rewrite (scan_d_digits ds1 (59 :: ds2 ++ [82])) by (exact N1 || exact D1 || reflexivity).
  rewrite (scan_d_digits ds2 [82]) by (exact N2 || exact D2 || reflexivity).
  reflexivity.
Qed.

(** When the terminal input ends within 15 bytes without an ['R'], the
    column is [-1]. *)
Theorem get_cursor_column_no_report t fa s :
  wok t = [] -> tin t = open_file s fa -> forallb no_R s = true -> (length s < 15)%nat ->
  get_cursor_column t = (-1, snd (read_reply 15 (snd (fputs cpr_query t)))).
Proof.
  unfold cpr_query. intros Hw Hin H Hl. destruct t as [tr te w ti]. cbn [wok tin] in *. subst w ti.
  unfold get_cursor_column. rewrite fputs_quiet. cbn [fst snd]. rewrite Z.ltb_irrefl.
  pose proof (read_reply_short 15 (tr ++ [Wr true ([ESC] ++ str "[6n")]) te [] fa s H Hl) as R.
  unfold open_file. destruct (read_reply 15 _) as [[l|] t2]; [discriminate R | reflexivity].
Qed.

(** [main] on the probe, the terminal answering both queries with
    well-formed reports: success exactly when the two columns are equal,
    otherwise [ERR_GENERAL] after the ['ESC 8'] write; [ERR_IO] instead when
    the device's error indicator was already set. *)
Theorem main_probe_reports o e fa a b c d rs :
  op o = OP_TEST -> wok (dev0 e) = [] ->
  tin (dev0 e) = open_file (cpr_reply a b ++ cpr_reply c d ++ rs) fa ->
  cpr_valid a b -> cpr_valid c d ->
  main o e
  = Some (if terr (dev0 e) then ERR_IO
          else if digits_value b =? digits_value d then EXIT_SUCCESS else ERR_GENERAL,
          mktty (trace (dev0 e) ++ mode_enter e
                 ++ [Wr true [ESC; 55]; Wr true cpr_query; Wr true (seq_start o ++ seq_end o);
                     Wr true cpr_query]
                 ++ (if digits_value b =? digits_value d then [] else [Wr true [ESC; 56]])
                 ++ mode_leave e)
                (terr (dev0 e)) [] (open_file rs fa)).
Proof.
  intros Hop Hw Hin V1 V2.
  pose proof (cpr_col_nonneg a b V1) as P1. pose proof (cpr_col_nonneg c d V2) as P2.
  destruct e as [isa ar si [tr te w ti]]. cbn [dev0 wok tin trace terr isatty] in *. subst w ti.
  unfold main. rewrite Hop. cbn [dev0 isatty].
  unfold mode_enter, mode_leave, ferror_tty. cbn [isatty].
  destruct isa; unfold log; cbn [trace terr wok tin]; unfold probe;
    rewrite fputs_quiet; cbn [snd];
    (rewrite (get_cursor_column_reply _ fa a b (cpr_reply c d ++ rs)) by (reflexivity || exact V1));
    cbn [snd trace terr wok tin]; rewrite fputs_quiet; cbn [snd];
    (rewrite (get_cursor_column_reply _ fa c d rs) by (reflexivity || exact V2));
    cbn [trace terr tin err open_file];
    replace (digits_value b <? 0) with false by (symmetry; apply Z.ltb_ge; lia);
    replace (digits_value d <? 0) with false by (symmetry; apply Z.ltb_ge; lia);
    cbn [orb negb];
    destruct (digits_value b =? digits_value d); cbn [negb];
    try rewrite fputs_quiet; cbn [snd trace terr wok tin err];
    rewrite orb_false_r; destruct te; rewrite <- ?app_assoc; reflexivity.
Qed.

Lemma strncmp_prefix n s p :
  Forall (fun c => 0 < c) p -> length p = n ->
  (strncmp n s p = 0 <-> exists r, s = p ++ r).
Proof.
  revert s p. induction n as [|n IH]; intros s p Hp Hl.
  - destruct p; [|discriminate Hl]. cbn. split; intros _; [exists s; reflexivity | reflexivity].
  - destruct p as [|c p]; [discriminate Hl|]. inversion Hp as [|? ? Hc Hp']; subst.
    cbn [strncmp hd tl]. destruct s as [|x s]; cbn [hd tl].
    + replace (0 =? c) with false by (symmetry; apply Z.eqb_neq; lia). cbn [negb].
      split; [lia | intros [r E]; discriminate E].
    + destruct (Z.eqb_spec x c) as [->|Ne]; cbn [negb].
      * replace (c =? 0) with false by (symmetry; apply Z.eqb_neq; lia).
        rewrite (IH s p Hp' ltac:(cbn in Hl; lia)).
        split; intros [r E]; exists r; [rewrite E; reflexivity | injection E as E; exact E].
      * split; [lia | intros [r E]; injection E as E1 _; congruence].
Qed.

(** [str_startswith(s, p)] holds exactly when [p] is a prefix of [s] (for a
    prefix without NUL). *)
Theorem str_startswith_spec s p :
  Forall (fun c => 0 < c) p -> str_startswith s p = true <-> exists r, s = p ++ r.
Proof.
  intros Hp. unfold str_startswith. rewrite Z.eqb_eq. apply strncmp_prefix; [exact Hp | reflexivity].
Qed.

(** [str_equal] is equality of NUL-free strings. *)
Theorem str_equal_spec s1 s2 :
  Forall (fun c => 0 < c) s1 -> Forall (fun c => 0 < c) s2 -> str_equal s1 s2 = true <-> s1 = s2.
Proof.
  unfold str_equal. rewrite Z.eqb_eq. revert s2.
  induction s1 as [|c1 s1 IH]; intros s2 H1 H2; destruct s2 as [|c2 s2]; cbn [strcmp].
  - tauto.
  - inversion H2; subst. split; [lia | discriminate].
  - inversion H1; subst. split; [lia | discriminate].
  - inversion H1 as [|? ? Hc1 H1']; inversion H2 as [|? ? Hc2 H2']; subst.
    destruct (Z.eqb_spec c1 c2) as [->|Ne].
    + replace (c2 =? 0) with false by (symmetry; apply Z.eqb_neq; lia).
      rewrite (IH s2 H1' H2'). split; [intros ->; reflexivity | intros E; injection E as E; exact E].
    + split; [lia | intros E; injection E as E _; congruence].
Qed.

Lemma parse_loop_term gs o t o' t' :
  parse_loop gs o t = inr (o', t') -> c_screen o' = c_screen o /\ c_tmux o' = c_tmux o.
Proof.
  revert o t. induction gs as [|[[ch idx] arg] gs IH]; intros o t H.
  - injection H as <- <-. split; reflexivity.
  - cbn [parse_loop] in H.
    repeat match type of H with
    | context [if ?b then _ else _] => destruct b
    end; try discriminate H; apply IH in H; exact H.
Qed.

Lemma strcmp_head s c r : c <> 0 -> strcmp s (c :: r) = 0 -> hd 0 s = c.
Proof.
  intros Hc H. destruct s as [|x s]; cbn [strcmp] in H; [lia|].
  cbn [hd]. destruct (Z.eqb_spec x c); [assumption|lia].
Qed.

(** [parse_opts] never selects both screen and tmux. *)
Theorem parse_opts_screen_xor_tmux gs envp o :
  parse_opts gs envp = inr o -> c_screen o && c_tmux o = false.
Proof.
  unfold parse_opts. destruct (parse_loop gs cli0 None) as [x|[o0 ty]] eqn:E; [discriminate|].
  destruct (parse_loop_term _ _ _ _ _ E) as [S0 T0]. cbn [cli0 c_screen c_tmux] in S0, T0.
  set (o2 := match c_tty_path (if c_op o0 =? 0 then set_op o0 119 else o0) with
             | Some _ => if c_op o0 =? 0 then set_op o0 119 else o0
             | None => set_tty_path (if c_op o0 =? 0 then set_op o0 119 else o0) (str "/dev/tty") end).
  assert (S2 : c_screen o2 = false /\ c_tmux o2 = false).
  { unfold o2. destruct (c_op o0 =? 0); destruct (c_tty_path _); cbn; split; assumption. }
  fold o2. destruct S2 as [S2 T2]. intros H.
  destruct ty as [ty|].
  - injection H as <-. cbn [set_term c_screen c_tmux].
    unfold str_equal. destruct (Z.eqb_spec (strcmp ty (str "screen")) 0) as [A|]; [|reflexivity].
    destruct (Z.eqb_spec (strcmp ty (str "tmux")) 0) as [B|]; [|reflexivity].
    apply strcmp_head in A; [|discriminate]. apply strcmp_head in B; [|discriminate]. rewrite A in B. vm_compute in B. discriminate B.
  - destruct (getenv envp (str "TERM")) as [term|]; [|injection H as <-; rewrite S2; reflexivity].
    destruct (str_startswith term (str "screen")).
    + destruct (getenv envp (str "TMUX")); injection H as <-; cbn [set_term c_screen c_tmux];
        rewrite ?S2, ?T2; reflexivity.
    + destruct (str_startswith term (str "tmux")); injection H as <-; cbn [set_term c_screen c_tmux];
        rewrite ?S2, ?T2; reflexivity.
Qed.

Lemma pos_of_check l : forallb (fun c => 0 <? c) l = true -> Forall (fun c => 0 < c) l.
Proof.
  intros H. apply Forall_forall. intros x Hx. rewrite forallb_forall in H.
  apply Z.ltb_lt. exact (H x Hx).
Qed.

Lemma cli_defaults_term o : c_screen (cli_defaults o) = c_screen o /\ c_tmux (cli_defaults o) = c_tmux o.
Proof. unfold cli_defaults. destruct (c_op o =? 0); destruct (c_tty_path _); split; reflexivity. Qed.

(** With [-T], the terminal type is screen exactly for [-T screen] and
    tmux exactly for [-T tmux], whatever the environment. *)
Theorem parse_opts_term_flag gs envp o ty :
  parse_loop gs cli0 None = inr (o, Some ty) -> Forall (fun c => 0 < c) ty ->
  exists o', parse_opts gs envp = inr o'
    /\ (c_screen o' = true <-> ty = str "screen") /\ (c_tmux o' = true <-> ty = str "tmux").
Proof.
  intros E P. unfold parse_opts. rewrite E.
  eexists. split; [reflexivity|]. cbn [set_term c_screen c_tmux].
  split; apply str_equal_spec; (exact P || (apply pos_of_check; vm_compute; reflexivity)).
Qed.

(** Without [-T], with [TERM] set: screen when [TERM] starts with
    [screen] and [TMUX] is unset; tmux when [TERM] starts with [screen] and
    [TMUX] is set, or when [TERM] starts with [tmux]. *)
Theorem parse_opts_term_env gs envp o term :
  parse_loop gs cli0 None = inr (o, None) -> getenv envp (str "TERM") = Some term ->
  exists o', parse_opts gs envp = inr o'
    /\ (c_screen o' = true <->
          (exists r, term = str "screen" ++ r) /\ getenv envp (str "TMUX") = None)
    /\ (c_tmux o' = true <->
          ((exists r, term = str "screen" ++ r) /\ getenv envp (str "TMUX") <> None)
          \/ (exists r, term = str "tmux" ++ r)).
Proof.
  intros E T. destruct (parse_loop_term _ _ _ _ _ E) as [S0 T0]. cbn [cli0 c_screen c_tmux] in S0, T0.
  destruct (cli_defaults_term o) as [S2 T2]. rewrite S0 in S2. rewrite T0 in T2.
  assert (Ps : Forall (fun c => 0 < c) (str "screen")) by (apply pos_of_check; vm_compute; reflexivity).
  assert (Pt : Forall (fun c => 0 < c) (str "tmux")) by (apply pos_of_check; vm_compute; reflexivity).
  pose proof (str_startswith_spec term _ Ps) as SS. pose proof (str_startswith_spec term _ Pt) as ST.
  assert (Ex : (exists r, term = str "screen" ++ r) -> ~ exists r, term = str "tmux" ++ r).
  { intros [r1 ->] [r2 E2]. vm_compute in E2. discriminate E2. }
  unfold parse_opts. rewrite E, T. fold (cli_defaults o).
  destruct (str_startswith term (str "screen")) eqn:Hs.
  - assert (Hs' : exists r, term = str "screen" ++ r) by (apply SS; reflexivity).
    destruct (getenv envp (str "TMUX")) as [v|] eqn:Hm.
    + eexists. split; [reflexivity|]. cbn [set_term c_screen c_tmux]. rewrite S2.
      split; [split; [discriminate | intros [_ D]; discriminate D] |].
      split; [intros _; left; split; [exact Hs' | discriminate] | reflexivity].
    + eexists. split; [reflexivity|]. cbn [set_term c_screen c_tmux]. rewrite T2.
      split; [split; [intros _; split; [exact Hs' | reflexivity] | reflexivity] |].
      split; [discriminate|]. intros [[_ D] | D]; [congruence | exfalso; exact (Ex Hs' D)].
  - assert (Hs' : ~ exists r, term = str "screen" ++ r) by (intros D; apply SS in D; congruence).
    destruct (str_startswith term (str "tmux")) eqn:Ht.
    + eexists. split; [reflexivity|]. cbn [set_term c_screen c_tmux]. rewrite S2.
      split; [split; [discriminate | intros [D _]; contradiction] |].
      split; [intros _; right; apply ST; reflexivity | reflexivity].
    + assert (Ht' : ~ exists r, term = str "tmux" ++ r) by (intros D; apply ST in D; congruence).
      eexists. split; [reflexivity|]. rewrite S2, T2.
      split; [split; [discriminate | intros [D _]; contradiction] |].
      split; [discriminate | intros [[D _] | D]; contradiction].
Qed.

Lemma parse_loop_op gs o t o' t' :
  parse_loop gs o t = inr (o', t') ->
  (c_op o' = c_op o /\ Forall not_op_opt gs)
  \/ ((c_op o' = 99 \/ c_op o' = 116)
      /\ exists pre g post, gs = pre ++ g :: post /\ optch_of g = c_op o' /\ Forall not_op_opt post).
Proof.
  revert o t. induction gs as [|g gs IH]; intros o t H.
  - injection H as <- <-. left. split; [reflexivity | constructor].
  - destruct g as [[ch idx] arg]. cbn [parse_loop] in H.
    set (c := optch_of (ch, idx, arg)) in *.
    assert (Lift : forall o1 t1, parse_loop gs o1 t1 = inr (o', t') -> c_op o1 = c_op o -> not_op_opt (ch, idx, arg) ->
              (c_op o' = c_op o /\ Forall not_op_opt ((ch, idx, arg) :: gs))
              \/ ((c_op o' = 99 \/ c_op o' = 116)
                  /\ exists pre g post, (ch, idx, arg) :: gs = pre ++ g :: post /\ optch_of g = c_op o'
                                        /\ Forall not_op_opt post)).
    { intros o1 t1 H1 Eo N. destruct (IH o1 t1 H1) as [[A B] | [A (pre & g & post & E & F & G)]].
      - left. split; [congruence | constructor; assumption].
      - right. split; [exact A|]. exists ((ch, idx, arg) :: pre), g, post. rewrite E. auto. }
    assert (Set_ : forall v, c = v -> (v = 99 \/ v = 116) -> parse_loop gs (set_op o v) t = inr (o', t') ->
              (c_op o' = c_op o /\ Forall not_op_opt ((ch, idx, arg) :: gs))
              \/ ((c_op o' = 99 \/ c_op o' = 116)
                  /\ exists pre g post, (ch, idx, arg) :: gs = pre ++ g :: post /\ optch_of g = c_op o'
                                        /\ Forall not_op_opt post)).
    { intros v Ec Hv H1. right. destruct (IH _ _ H1) as [[A B] | [A (pre & g & post & E & F & G)]].
      - cbn [set_op c_op] in A. split; [rewrite A; exact Hv|].
        exists [], (ch, idx, arg), gs. split; [reflexivity|]. split; [rewrite A; exact Ec | exact B].
      - split; [exact A|]. exists ((ch, idx, arg) :: pre), g, post. rewrite E. auto. }
    destruct (Z.eqb_spec c 99) as [E99|N99]; [exact (Set_ 99 E99 (or_introl eq_refl) H)|].
    destruct (Z.eqb_spec c 110); [apply (Lift _ _ H); [reflexivity | unfold not_op_opt; unfold c in *; lia]|].
    destruct (Z.eqb_spec c 111); [apply (Lift _ _ H); [reflexivity | unfold not_op_opt; unfold c in *; lia]|].
    destruct (Z.eqb_spec c 112); [apply (Lift _ _ H); [reflexivity | unfold not_op_opt; unfold c in *; lia]|].
    destruct (Z.eqb_spec c 84); [apply (Lift _ _ H); [reflexivity | unfold not_op_opt; unfold c in *; lia]|].
    destruct (Z.eqb_spec c 116) as [E116|N116]; [exact (Set_ 116 E116 (or_intror eq_refl) H)|].
    destruct (c =? 104); [discriminate H|]. destruct (c =? 86); discriminate H.
Qed.

(** The operation is the one of the last [-c] or [-t], the copy operation
    ['w'] when there is none. *)
Theorem parse_opts_op gs envp o :
  parse_opts gs envp = inr o ->
  (c_op o = 119 /\ Forall not_op_opt gs)
  \/ ((c_op o = 99 \/ c_op o = 116)
      /\ exists pre g post, gs = pre ++ g :: post /\ optch_of g = c_op o /\ Forall not_op_opt post).
Proof.
  unfold parse_opts. destruct (parse_loop gs cli0 None) as [x|[o0 ty]] eqn:E; [discriminate|].
  fold (cli_defaults o0).
  assert (Op : forall o', (o' = cli_defaults o0 \/ exists sc tm, o' = set_term (cli_defaults o0) sc tm) ->
                 c_op o' = if c_op o0 =? 0 then 119 else c_op o0).
  { intros o' [-> | (sc & tm & ->)]; unfold cli_defaults;
      destruct (c_op o0 =? 0); destruct (c_tty_path _); reflexivity. }
  intros H.
  assert (Hform : o = cli_defaults o0 \/ exists sc tm, o = set_term (cli_defaults o0) sc tm).
  { destruct ty as [ty|]; [injection H as <-; right; eauto|].
    destruct (getenv envp (str "TERM")); [|injection H as <-; left; reflexivity].
    destruct (str_startswith _ (str "screen"));
      [destruct (getenv envp (str "TMUX")) | destruct (str_startswith _ (str "tmux"))];
      injection H as <-; eauto. }
  rewrite (Op o Hform).
  destruct (parse_loop_op _ _ _ _ _ E) as [[A B] | [A R]].
  - cbn [cli0 c_op] in A. rewrite A. left. split; [reflexivity | exact B].
  - destruct A as [A|A]; rewrite A in *; right; (split; [auto | exact R]).
Qed.

Lemma parse_loop_exit pre g post o t :
  forallb (fun g => loop_opt (optch_of g)) pre = true -> loop_opt (optch_of g) = false ->
  parse_loop (pre ++ g :: post) o t
  = inl (if optch_of g =? 104 then PHelp else if optch_of g =? 86 then PVersion else PUsage).
Proof.
  revert o t. induction pre as [|h pre IH]; intros o t Hp Hg.
  - destruct g as [[ch idx] arg]. cbn [app parse_loop].
    unfold loop_opt in Hg. cbn [existsb] in Hg. rewrite orb_false_r in Hg.
    repeat match type of Hg with
    | _ || _ = false => let H1 := fresh "H" in apply orb_false_elim in Hg as [H1 Hg]; rewrite H1
    end.
    rewrite Hg. destruct (_ =? 104); [reflexivity|]. destruct (_ =? 86); reflexivity.
  - cbn [forallb] in Hp. apply andb_prop in Hp as [Hh Hp].
    destruct h as [[ch idx] arg]. cbn [app parse_loop].
    unfold loop_opt in Hh. cbn [existsb] in Hh. rewrite orb_false_r in Hh.
    repeat match goal with
    | |- context [if ?b then _ else _] =>
        match b with optch_of _ =? _ => destruct b eqn:? end
    end; try (apply IH; assumption);
    repeat match goal with H : (_ =? _) = false |- _ => rewrite H in Hh end; discriminate Hh.
Qed.

(** The first option that is not one of [-c -n -o -p -T -t] ends the
    parsing: [-h] and [-V] exit with the help or the version, any other with
    [ERR_WRONG_USAGE]; whatever follows is ignored. *)
Theorem parse_opts_exit gs envp pre g post :
  gs = pre ++ g :: post ->
  forallb (fun g => loop_opt (optch_of g)) pre = true -> loop_opt (optch_of g) = false ->
  parse_opts gs envp
  = inl (if optch_of g =? 104 then PHelp else if optch_of g =? 86 then PVersion else PUsage).
Proof.
  intros -> Hp Hg. unfold parse_opts. rewrite parse_loop_exit by assumption. reflexivity.
Qed.

(** [term_change_local_modes] with the mask [main] passes: it fails with
    [-1] and no change when [tcgetattr] or [tcsetattr] fails; otherwise it
    clears exactly the bits 1 ([ICANON]), 3 ([ECHO]) and 7 (the value of
    [CREAD], which in [c_lflag] is [NOFLSH]) and keeps every other one. *)
Theorem term_change_local_modes_bits d :
  0 <= lflag d < 2 ^ 32 ->
  term_change_local_modes d main_lflag_mask
  = (if get_ok d && set_ok d then (0, mkterm (Z.land (lflag d) main_lflag_mask) true true)
     else (-1, d))
  /\ forall i, Z.testbit (Z.land (lflag d) main_lflag_mask) i
               = Z.testbit (lflag d) i && negb ((i =? 1) || (i =? 3) || (i =? 7)).
Proof.
  intros Hl. split.
  - unfold term_change_local_modes. destruct (get_ok d), (set_ok d); reflexivity.
  - intros i. destruct (Z.ltb_spec i 0) as [Hi|Hi].
    + rewrite !Z.testbit_neg_r by exact Hi. reflexivity.
    + rewrite Z.land_spec. unfold main_lflag_mask, tcflag.
      destruct (Z.ltb_spec i 32) as [H32|H32].
      * rewrite Z.mod_pow2_bits_low by exact H32. rewrite Z.lnot_spec by exact Hi.
        change (Z.lor CREAD (Z.lor ECHO ICANON)) with 138.
        destruct (Z.ltb_spec i 8) as [H8|H8].
        -- assert (i = 0 \/ i = 1 \/ i = 2 \/ i = 3 \/ i = 4 \/ i = 5 \/ i = 6 \/ i = 7) as Hc by lia.
           destruct Hc as [-> | [-> | [-> | [-> | [-> | [-> | [-> | ->]]]]]]];
             cbn; rewrite ?andb_true_r, ?andb_false_r; reflexivity.
        -- rewrite (Z.bits_above_log2 138 i) by (cbn; lia). cbn [negb].
           replace ((i =? 1) || (i =? 3) || (i =? 7)) with false
             by (symmetry; rewrite !orb_false_iff, !Z.eqb_neq; lia).
           reflexivity.
      * rewrite Z.mod_pow2_bits_high by lia.
        replace (Z.testbit (lflag d) i) with false.
        -- reflexivity.
        -- symmetry. rewrite <- (Z.mod_small (lflag d) (2 ^ 32)) by exact Hl.
           apply Z.mod_pow2_bits_high. lia.
Qed.


(** A command line too long to join: [ERR_GENERAL], whatever the device's
    error indicator, with nothing written; only the mode change and its
    restoration reach the device. *)
Theorem main_join_too_long o e :
  op o = OP_WRITE -> args e <> [] -> join_args [] (args e) = None ->
  main o e = Some (ERR_GENERAL, mktty (trace (dev0 e) ++ mode_enter e ++ mode_leave e)
                                      (terr (dev0 e)) (wok (dev0 e)) (tin (dev0 e))).
Proof.
  intros Hop Ha J. destruct e as [isa ar si [tr te w ti]]. cbn [args dev0] in *.
  unfold main. rewrite Hop. cbn [args dev0 isatty].
  destruct ar as [|a r]; [congruence|]. rewrite J.
  unfold mode_enter, mode_leave. cbn [isatty]. destruct isa; unfold log; cbn [trace terr wok tin];
    rewrite <- ?app_assoc, ?app_nil_r; reflexivity.
Qed.

(** ** Examples *)

Lemma b64_loop_app_witness :
  b64_loop (str "abc" ++ str "de") = b64_loop (str "abc") ++ b64_loop (str "de")
  /\ b64_loop (str "abcde") = str "YWJjZGU=".
Proof.
  split; [apply b64_loop_app; reflexivity | vm_compute; reflexivity].
Defined.

Lemma concat_chunks_b64_witness :
  concat (map b64_loop (chunk_list 3 (str "hello"))) = b64_loop (str "hello")
  /\ chunk_list 3 (str "hello") = [str "hel"; str "lo"].
Proof.
  split; [apply concat_chunks_b64; [lia | reflexivity] | vm_compute; reflexivity].
Defined.

Lemma transfer_exact_witness :
  transfer write_opts (open_file (str "hi") true) quiet_tty
  = Some (ERR_IO, mktty [Wr true (seq_start write_opts); Wr true (str "aGk="); Wr true [BEL]]
                        false [] (open_file [] false), false).
Proof.
  rewrite (transfer_exact write_opts (str "hi") true quiet_tty);
    [vm_compute; reflexivity | apply bytes_of_check; vm_compute; reflexivity | reflexivity].
Defined.

Lemma main_write_exact_witness :
  main (trim_opts false false false) (mkenv true [str "hi"; str "yo"] (open_file [] false) quiet_tty)
  = Some (EXIT_SUCCESS,
          mktty [ModeSave; ModeSet; Wr true (seq_start write_opts); Wr true (str "aGkgeW8=");
                 Wr true [BEL]; ModeRestore] false [] (open_file [] false)).
Proof.
  rewrite (main_write_exact (trim_opts false false false)
             (mkenv true [str "hi"; str "yo"] (open_file [] false) quiet_tty) (str "hi yo") false);
    [vm_compute; reflexivity | reflexivity | reflexivity
    | apply bytes_of_check; vm_compute; reflexivity
    | right; split; [discriminate | split; [vm_compute; reflexivity | reflexivity]]].
Defined.

Lemma main_write_output_witness :
  main_output (trim_opts false true true) (stdin_env (str "hi" ++ [10]))
  = Some (EXIT_SUCCESS, [ESC] ++ str "Ptmux;" ++ [ESC; ESC] ++ str "]52;p;aGk=" ++ [BEL; ESC; 92]).
Proof.
  rewrite (main_write_output (trim_opts false true true) (stdin_env (str "hi" ++ [10]))
             (str "hi" ++ [10]) false);
    [vm_compute; reflexivity | reflexivity | reflexivity | reflexivity
    | apply bytes_of_check; vm_compute; reflexivity | left; split; reflexivity].
Defined.

Lemma main_join_too_long_witness :
  main write_opts (mkenv true [repeat 97 (Z.to_nat 74993)] (open_file [] false) quiet_tty)
  = Some (ERR_GENERAL, mktty [ModeSave; ModeSet; ModeRestore] false [] (open_file [] false)).
Proof.
  rewrite (main_join_too_long write_opts
             (mkenv true [repeat 97 (Z.to_nat 74993)] (open_file [] false) quiet_tty));
    [reflexivity | reflexivity | discriminate | vm_compute; reflexivity].
Defined.

Lemma get_cursor_column_reply_witness :
  get_cursor_column (reply_tty (cpr_reply (str "12") (str "34") ++ str "xy"))
  = (34, mktty [Wr true cpr_query] false [] (open_file (str "xy") false)).
Proof.
  rewrite (get_cursor_column_reply (reply_tty (cpr_reply (str "12") (str "34") ++ str "xy")) false
             (str "12") (str "34") (str "xy"));
    [vm_compute; reflexivity | reflexivity | reflexivity |].
  unfold cpr_valid. split; [discriminate|]. split; [discriminate|].
  split; [vm_compute; reflexivity|]. split; [cbn; lia|]. split; vm_compute; reflexivity.
Defined.

Lemma get_cursor_column_no_report_witness :
  fst (get_cursor_column (reply_tty ([ESC] ++ str "[12;34"))) = -1.
Proof.
  rewrite (get_cursor_column_no_report (reply_tty ([ESC] ++ str "[12;34")) false ([ESC] ++ str "[12;34"));
    [reflexivity | reflexivity | reflexivity | vm_compute; reflexivity | cbn; lia].
Defined.

Lemma main_probe_reports_witness :
  main test_opts (mkenv false [] (open_file [] false)
                    (reply_tty (cpr_reply (str "1") (str "5") ++ cpr_reply (str "1") (str "9"))))
  = Some (ERR_GENERAL,
          mktty [Wr true [ESC; 55]; Wr true cpr_query; Wr true (seq_start test_opts ++ seq_end test_opts);
                 Wr true cpr_query; Wr true [ESC; 56]] false [] (open_file [] false)).
Proof.
  rewrite (main_probe_reports test_opts
             (mkenv false [] (open_file [] false)
                (reply_tty (cpr_reply (str "1") (str "5") ++ cpr_reply (str "1") (str "9"))))
             false (str "1") (str "5") (str "1") (str "9") []);
    [vm_compute; reflexivity | reflexivity | reflexivity
    | cbn [dev0 tin reply_tty]; rewrite app_nil_r; reflexivity | |].
  all: unfold cpr_valid; split; [discriminate|]; split; [discriminate|];
    split; [vm_compute; reflexivity|]; split; [cbn; lia|]; split; vm_compute; reflexivity.
Defined.

Lemma str_startswith_spec_witness :
  exists r, str "screen-256color" = str "screen" ++ r.
Proof.
  apply (str_startswith_spec (str "screen-256color") (str "screen"));
    [apply pos_of_check; vm_compute; reflexivity | vm_compute; reflexivity].
Defined.

Lemma str_equal_spec_witness :
  str_equal (str "tmux") (str "tmux") = true /\ str_equal (str "tmux") (str "tmux2") = false.
Proof.
  split.
  - apply (str_equal_spec (str "tmux") (str "tmux"));
      [apply pos_of_check; vm_compute; reflexivity | apply pos_of_check; vm_compute; reflexivity | reflexivity].
  - vm_compute. reflexivity.
Defined.

Lemma parse_opts_screen_xor_tmux_witness :
  exists o, parse_opts [(84, 0%nat, str "screen")] [(str "TMUX", str "/tmp/tmux-0/default")] = inr o
    /\ c_screen o && c_tmux o = false.
Proof.
  destruct (parse_opts [(84, 0%nat, str "screen")] [(str "TMUX", str "/tmp/tmux-0/default")])
    as [x|o] eqn:E; [vm_compute in E; discriminate E|].
  exists o. split; [reflexivity|]. exact (parse_opts_screen_xor_tmux _ _ o E).
Defined.

Lemma parse_opts_term_flag_witness :
  exists o', parse_opts [(84, 0%nat, str "tmux"); (0, 1%nat, str "/dev/pts/3")] [(str "TERM", str "screen")]
             = inr o'
    /\ (c_screen o' = true <-> str "tmux" = str "screen") /\ (c_tmux o' = true <-> str "tmux" = str "tmux").
Proof.
  apply (parse_opts_term_flag _ _ (mkcli 0 false false false false (Some (str "/dev/pts/3"))) (str "tmux"));
    [vm_compute; reflexivity | apply pos_of_check; vm_compute; reflexivity].
Defined.

Lemma parse_opts_term_env_witness :
  exists o', parse_opts [(110, 0%nat, [])] [(str "TERM", str "screen-256color"); (str "TMUX", str "/tmp/t")]
             = inr o'
    /\ (c_screen o' = true <->
          (exists r, str "screen-256color" = str "screen" ++ r)
          /\ getenv [(str "TERM", str "screen-256color"); (str "TMUX", str "/tmp/t")] (str "TMUX") = None)
    /\ (c_tmux o' = true <->
          ((exists r, str "screen-256color" = str "screen" ++ r)
           /\ getenv [(str "TERM", str "screen-256color"); (str "TMUX", str "/tmp/t")] (str "TMUX") <> None)
          \/ (exists r, str "screen-256color" = str "tmux" ++ r)).
Proof.
  apply (parse_opts_term_env _ _ (mkcli 0 false false false true None));
    [vm_compute; reflexivity | vm_compute; reflexivity].
Defined.

Lemma parse_opts_op_witness :
  exists o, parse_opts [(99, 0%nat, []); (116, 0%nat, []); (110, 0%nat, [])] [] = inr o
    /\ c_op o = 116
    /\ ((c_op o = 119 /\ Forall not_op_opt [(99, 0%nat, []); (116, 0%nat, []); (110, 0%nat, [])])
        \/ ((c_op o = 99 \/ c_op o = 116)
            /\ exists pre g post, [(99, 0%nat, []); (116, 0%nat, []); (110, 0%nat, [])] = pre ++ g :: post
                 /\ optch_of g = c_op o /\ Forall not_op_opt post)).
Proof.
  destruct (parse_opts [(99, 0%nat, []); (116, 0%nat, []); (110, 0%nat, [])] []) as [x|o] eqn:E;
    [vm_compute in E; discriminate E|].
  exists o. split; [reflexivity|]. split; [vm_compute in E; injection E as <-; reflexivity|].
  exact (parse_opts_op _ _ o E).
Defined.

Lemma parse_opts_exit_witness :
  parse_opts [(112, 0%nat, []); (0, 6%nat, []); (86, 0%nat, [])] [] = inl PHelp.
Proof.
  rewrite (parse_opts_exit _ [] [(112, 0%nat, [])] (0, 6%nat, []) [(86, 0%nat, [])]);
    reflexivity.
Defined.

Lemma term_change_local_modes_bits_witness :
  term_change_local_modes (mkterm 255 true true) main_lflag_mask = (0, mkterm 117 true true)
  /\ Z.testbit 117 7 = false /\ Z.testbit 117 0 = true.
Proof.
  destruct (term_change_local_modes_bits (mkterm 255 true true)) as [E B]; [cbn; lia|].
  split; [rewrite E; vm_compute; reflexivity|].
  change 117 with (Z.land (lflag (mkterm 255 true true)) main_lflag_mask). rewrite !B. split; reflexivity.
Defined.
